(** * PRK7 backend: admin authentication and API-key issuance

    A shallow embedding of [Backend/server.js] and the properties of its
    handlers.  The Express application is modelled as functions over an
    explicit world (committed store, auto-increment counters, connection
    pool, effect trace) in a small state-and-exception monad; everything the
    process reads from outside (environment variables, clock, time zone,
    entropy, failures of the store) is collected in one record. *)

From Stdlib Require Import ZArith String Ascii List Lia Bool Floats Sorted.
From stdpp Require Import base option list strings gmap.

Import ListNotations.
Set Warnings "-register-all".
#[local] Arguments String.append !_ _ : simpl nomatch.
Local Open Scope string_scope.
Local Open Scope Z_scope.

(** ** JavaScript values that reach the handlers *)

Module Js.

(** What [express.json()] can put in a field of [req.body].  A field that is
    absent reads as [undefined]; it is the [None] of a lookup. *)
Inductive value : Type :=
| JNull
| JBool (b : bool)
| JNum (x : float)
| JStr (s : string)
| JArr (items : list value)
| JObj (fields : list (string * value)).

(** ToBoolean: only [null], [false], [0], [-0], [NaN] and the empty string
    are falsy; arrays and objects are always truthy. *)
Definition truthy (v : value) : bool :=
  match v with
  | JNull => false
  | JBool b => b
  | JNum x => negb (PrimFloat.is_zero x || PrimFloat.is_nan x)
  | JStr s => negb (String.eqb s "")
  | JArr _ => true
  | JObj _ => true
  end.

(** [!x] on a possibly-undefined field. *)
Definition not (o : option value) : bool :=
  match o with
  | None => true
  | Some v => negb (truthy v)
  end.

(** Errors carry the [code] property the handlers inspect. *)
Record error : Type := Error { code : option string }.

End Js.

(** ** Bytes and their hexadecimal rendering *)

Module Hex.

Definition digit (n : Z) : ascii :=
  if n <? 10 then ascii_of_N (Z.to_N (48 + n)) else ascii_of_N (Z.to_N (87 + n)).

(** Two lower-case digits per byte, as [Buffer.toString('hex')]. *)
Definition of_byte (b : Z) : string :=
  String (digit (b / 16)) (String (digit (b mod 16)) EmptyString).

Fixpoint of_bytes (bs : list Z) : string :=
  match bs with
  | [] => EmptyString
  | b :: bs' => of_byte b ++ of_bytes bs'
  end.

Definition is_hex (c : ascii) : bool :=
  let n := Z.of_N (N_of_ascii c) in
  ((48 <=? n) && (n <=? 57)) || ((97 <=? n) && (n <=? 102)).

Fixpoint all_hex (s : string) : bool :=
  match s with
  | EmptyString => true
  | String c s' => is_hex c && all_hex s'
  end.

End Hex.

(** ** SHA-256 (FIPS 180-4), the digest behind [hashPassword] *)

Module Sha256.

Definition w32 (x : Z) : Z := x mod 2 ^ 32.
Definition add32 (x y : Z) : Z := w32 (x + y).
Definition rotr (n x : Z) : Z := Z.lor (Z.shiftr x n) (w32 (Z.shiftl x (32 - n))).
Definition ch (x y z : Z) : Z := Z.lxor (Z.land x y) (Z.land (Z.lxor x (2 ^ 32 - 1)) z).
Definition maj (x y z : Z) : Z :=
  Z.lxor (Z.lxor (Z.land x y) (Z.land x z)) (Z.land y z).
Definition bsig0 (x : Z) : Z := Z.lxor (Z.lxor (rotr 2 x) (rotr 13 x)) (rotr 22 x).
Definition bsig1 (x : Z) : Z := Z.lxor (Z.lxor (rotr 6 x) (rotr 11 x)) (rotr 25 x).
Definition ssig0 (x : Z) : Z := Z.lxor (Z.lxor (rotr 7 x) (rotr 18 x)) (Z.shiftr x 3).
Definition ssig1 (x : Z) : Z := Z.lxor (Z.lxor (rotr 17 x) (rotr 19 x)) (Z.shiftr x 10).

(** The constants are the first 32 bits of the fractional parts of the
    cube roots (resp. square roots) of the first primes; they are computed
    here rather than copied. *)
Definition is_prime (n : nat) : bool :=
  forallb (fun d => negb (Nat.eqb (n mod d) 0)) (seq 2 (n - 2)).

Definition primes (count : nat) : list Z :=
  map Z.of_nat (take count (List.filter is_prime (seq 2 400))).

(** The largest [r' >= r] with [r' ^ k <= n], searched bit by bit below
    [2 ^ bits]. *)
Fixpoint root_from (k : Z) (bits : nat) (n r : Z) : Z :=
  match bits with
  | O => r
  | S b =>
      let r' := r + 2 ^ Z.of_nat b in
      if r' ^ k <=? n then root_from k b n r' else root_from k b n r
  end.

Definition fractional_bits (k p : Z) : Z :=
  w32 (root_from k 40 (p * 2 ^ (32 * k)) 0).

Definition K : list Z := Eval vm_compute in map (fractional_bits 3) (primes 64).

Definition H0 : list Z := Eval vm_compute in map (fractional_bits 2) (primes 8).

(** Padding: a 1 bit, zeros up to 56 mod 64, the bit length on 8 bytes. *)
Definition be_bytes (n : nat) (x : Z) : list Z :=
  map (fun i => (x / 2 ^ (8 * Z.of_nat i)) mod 256) (rev (seq 0 n)).

Definition pad (msg : list Z) : list Z :=
  let len := Z.of_nat (length msg) in
  let zeros := Z.to_nat ((55 - len) mod 64) in
  msg ++ [0x80] ++ repeat 0 zeros ++ be_bytes 8 (8 * len).

Fixpoint words (fuel : nat) (bs : list Z) : list Z :=
  match fuel, bs with
  | S fuel', a :: b :: c :: d :: rest =>
      (((a * 256 + b) * 256 + c) * 256 + d) :: words fuel' rest
  | _, _ => []
  end.

Fixpoint blocks (fuel : nat) (ws : list Z) : list (list Z) :=
  match fuel, ws with
  | S fuel', _ :: _ => take 16 ws :: blocks fuel' (drop 16 ws)
  | _, _ => []
  end.

(** The message schedule, kept newest-first while it grows to 64 words. *)
Fixpoint schedule (n : nat) (rev_w : list Z) : list Z :=
  match n with
  | O => rev_w
  | S n' =>
      let w i := nth i rev_w 0 in
      schedule n'
        (add32 (add32 (ssig1 (w 1%nat)) (w 6%nat))
               (add32 (ssig0 (w 14%nat)) (w 15%nat)) :: rev_w)
  end.

Definition round (st : list Z) (kw : Z * Z) : list Z :=
  match st with
  | [a; b; c; d; e; f; g; h] =>
      let t1 := add32 (add32 (add32 h (bsig1 e)) (add32 (ch e f g) (fst kw))) (snd kw) in
      let t2 := add32 (bsig0 a) (maj a b c) in
      [add32 t1 t2; a; b; c; add32 d t1; e; f; g]
  | _ => st
  end.

Definition zip2 (xs ys : list Z) : list (Z * Z) := combine xs ys.

Definition compress (h : list Z) (block : list Z) : list Z :=
  let w := rev (schedule 48 (rev block)) in
  let st := fold_left round (zip2 K w) h in
  map (fun p => add32 (fst p) (snd p)) (zip2 h st).

Definition digest (msg : list Z) : list Z :=
  let ws := words (length msg + 72) (pad msg) in
  let h := fold_left compress (blocks (length ws) ws) H0 in
  concat (map (be_bytes 4) h).

End Sha256.

Definition utf8 (s : string) : list Z :=
  map (fun c => Z.of_N (N_of_ascii c)) (list_ascii_of_string s).

(** ** Strings, the way the source slices and splits them *)

Module Str.

(** [s.startsWith(p)] *)
Definition startsWith (p s : string) : bool := String.prefix p s.

(** [s.slice(0, n)] *)
Definition slice0 (n : nat) (s : string) : string := String.substring 0 n s.

(** [s.replace(a, b)] with one-character strings: only the first
    occurrence is replaced. *)
Fixpoint replace (a b : ascii) (s : string) : string :=
  match s with
  | EmptyString => EmptyString
  | String c s' => if Ascii.eqb c a then String b s' else String c (replace a b s')
  end.

(** [s.split(sep)] with a one-character separator: the segments between
    separators, empty segments kept; [acc] holds the current segment
    reversed. *)
Fixpoint split_from (sep : ascii) (acc : list ascii) (s : string) : list string :=
  match s with
  | EmptyString => [string_of_list_ascii (rev acc)]
  | String c s' =>
      if Ascii.eqb c sep
      then string_of_list_ascii (rev acc) :: split_from sep [] s'
      else split_from sep (c :: acc) s'
  end.

Definition split (sep : ascii) (s : string) : list string := split_from sep [] s.

Definition space : ascii := Ascii.ascii_of_nat 32.

Fixpoint has (c : ascii) (s : string) : bool :=
  match s with
  | EmptyString => false
  | String d s' => Ascii.eqb d c || has c s'
  end.

End Str.

(** ** The ECMAScript time-value arithmetic used by [Date] *)

Module Date.

Definition msPerDay : Z := 86400000.
Definition msPerHour : Z := 3600000.
Definition msPerMinute : Z := 60000.
Definition msPerSecond : Z := 1000.

Definition Day (t : Z) : Z := t / msPerDay.
Definition TimeWithinDay (t : Z) : Z := t mod msPerDay.

Definition DaysInYear (y : Z) : Z :=
  if negb (y mod 4 =? 0) then 365
  else if negb (y mod 100 =? 0) then 366
  else if negb (y mod 400 =? 0) then 365
  else 366.

Definition DayFromYear (y : Z) : Z :=
  365 * (y - 1970) + (y - 1969) / 4 - (y - 1901) / 100 + (y - 1601) / 400.

Definition TimeFromYear (y : Z) : Z := msPerDay * DayFromYear y.

(** The largest year whose first day is not after [t]: the mean-year
    estimate is off by at most one, which the two comparisons repair. *)
Definition YearFromTime (t : Z) : Z :=
  let d := Day t in
  let y := 1970 + (400 * d) / 146097 in
  if d <? DayFromYear y then y - 1
  else if DayFromYear (y + 1) <=? d then y + 1
  else y.

Definition DayWithinYear (t : Z) : Z := Day t - DayFromYear (YearFromTime t).
Definition InLeapYear (t : Z) : Z := DaysInYear (YearFromTime t) - 365.

(** First day of month [m] (0 = January) within a year. *)
Definition monthStart (leap m : Z) : Z :=
  match m with
  | 0 => 0 | 1 => 31 | 2 => 59 + leap | 3 => 90 + leap | 4 => 120 + leap
  | 5 => 151 + leap | 6 => 181 + leap | 7 => 212 + leap | 8 => 243 + leap
  | 9 => 273 + leap | 10 => 304 + leap | 11 => 334 + leap
  | _ => 365 + leap
  end.

Definition MonthFromTime (t : Z) : Z :=
  let d := DayWithinYear t in
  let leap := InLeapYear t in
  if d <? 31 then 0
  else if d <? 59 + leap then 1
  else if d <? 90 + leap then 2
  else if d <? 120 + leap then 3
  else if d <? 151 + leap then 4
  else if d <? 181 + leap then 5
  else if d <? 212 + leap then 6
  else if d <? 243 + leap then 7
  else if d <? 273 + leap then 8
  else if d <? 304 + leap then 9
  else if d <? 334 + leap then 10
  else 11.

Definition DateFromTime (t : Z) : Z :=
  DayWithinYear t - monthStart (InLeapYear t) (MonthFromTime t) + 1.

Definition HourFromTime (t : Z) : Z := (t / msPerHour) mod 24.
Definition MinFromTime (t : Z) : Z := (t / msPerMinute) mod 60.
Definition SecFromTime (t : Z) : Z := (t / msPerSecond) mod 60.
Definition msFromTime (t : Z) : Z := t mod msPerSecond.

(** [MakeDay]: the day number of the first of the month, plus [date - 1];
    months outside 0..11 carry into the year. *)
Definition MakeDay (year month date : Z) : Z :=
  let ym := year + month / 12 in
  let mn := month mod 12 in
  DayFromYear ym + monthStart (DaysInYear ym - 365) mn + date - 1.

Definition MakeDate (day time : Z) : Z := day * msPerDay + time.

(** [TimeClip]: beyond 8.64e15 ms the time value is NaN, here [None]. *)
Definition TimeClip (t : Z) : option Z :=
  if Z.abs t <=? 8640000000000000 then Some t else None.

(** Decimal rendering on a fixed number of digits. *)
Definition decimal_digit (n : Z) : ascii := ascii_of_N (Z.to_N (48 + n mod 10)).

Fixpoint padded (width : nat) (n : Z) : string :=
  match width with
  | O => EmptyString
  | S w => padded w (n / 10) ++ String (decimal_digit n) EmptyString
  end.

(** [Date.prototype.toISOString] on a valid time value: years 0..9999 on
    four digits, any other year signed on six. *)
Definition toISOString (t : Z) : string :=
  let y := YearFromTime t in
  let year :=
    if (0 <=? y) && (y <=? 9999) then padded 4 y
    else if 0 <=? y then "+" ++ padded 6 y
    else "-" ++ padded 6 (- y) in
  year ++ "-" ++ padded 2 (MonthFromTime t + 1) ++ "-" ++ padded 2 (DateFromTime t)
       ++ "T" ++ padded 2 (HourFromTime t) ++ ":" ++ padded 2 (MinFromTime t)
       ++ ":" ++ padded 2 (SecFromTime t) ++ "." ++ padded 3 (msFromTime t) ++ "Z".

End Date.

(** ** The persisted schema *)

(** Modelled from the spec: the schema is not part of the sources; the
    columns and the unique constraints are those of the spec's persisted
    schema, [admins(id, email UNIQUE, password_hash)],
    [users(id, first_name, last_name, email UNIQUE, created_at)] and
    [api_keys(id, user_id, api_key UNIQUE, expires_at, created_at)]. *)
Record admin : Type := Admin {
  admin_id : Z; admin_email : string; password_hash : string }.

Record user : Type := User {
  user_id : Z; first_name : string; last_name : string; user_email : string;
  user_created_at : Z }.

Record api_key : Type := ApiKey {
  key_id : Z; key_user_id : Z; key_value : string; expires_at : string;
  key_created_at : Z }.

Record store : Type := Store {
  admins : list admin; users : list user; api_keys : list api_key }.

(** AUTO_INCREMENT counters; the store does not give back the values a
    rolled-back insert has consumed, so they live outside the tables. *)
Record counters : Type := Counters {
  next_admin : Z; next_user : Z; next_key : Z }.

(** ** What the process reads from outside *)

(** The awaited calls and library calls at which a failure can be forced. *)
Inductive io : Type :=
| InsertAdmin | SelectAdmin | SelectUsers | SelectKeys
| GetConnection | BeginTransaction | InsertUser | InsertApiKey
| Commit | Rollback | RandomBytes.

#[global] Instance io_eq_dec : EqDecision io.
Proof. solve_decision. Defined.

Record env : Type := Env {
  process_env : gmap string string;  (* process.env after dotenv *)
  clock : Z;                         (* ms since the epoch read by [new Date()] *)
  LocalTZA : Z -> bool -> Z;         (* the host's time-zone offset, in ms *)
  entropy : nat -> Byte.byte;        (* the OS random source, byte by byte *)
  store_clock : Z;                   (* the store's CURRENT_TIMESTAMP *)
  collation : string -> string;      (* comparison key of the email columns *)
  fault : io -> option Js.error;     (* a failure forced at an I/O step *)
  coerced_insert : io -> store -> store * Z;
                                     (* what an INSERT leaves, and its insertId,
                                        when a parameter is not a string *)
  coerced_select : store -> list string
                                     (* the rows of a SELECT whose parameter is
                                        not a string *)
}.

(** ** Effects *)

Inductive event : Type :=
| Call (step : io)            (* a call to the driver or to the OS *)
| Hashed                      (* a digest was computed *)
| Released                    (* connection.release() *)
| Logged (what : string).     (* console.error *)

Record world : Type := World {
  db : store;                 (* committed state *)
  autoinc : counters;
  connection : option (option store);
                              (* the handler's [connection] variable:
                                 [None] while undefined, else the working
                                 copy of its open transaction, if any *)
  in_use : nat;               (* connections checked out of the pool *)
  trace : list event          (* effects so far, oldest first *)
}.

(** The result of running a computation: a value or a thrown error (for
    an [async] handler: a resolved or a rejected promise). *)
Inductive result (A : Type) : Type :=
| Return (a : A) (w : world)
| Throw (e : Js.error) (w : world).
Arguments Return {A} a w.
Arguments Throw {A} e w.

Definition M (A : Type) : Type := world -> result A.

Definition ret {A} (a : A) : M A := fun w => Return a w.
Definition throw {A} (e : Js.error) : M A := fun w => Throw e w.

Definition bind {A B} (m : M A) (k : A -> M B) : M B :=
  fun w =>
    match m w with
    | Return a w' => k a w'
    | Throw e w' => Throw e w'
    end.

Declare Scope js_scope.
Delimit Scope js_scope with js.
Notation "'let!' x ':=' m 'in' k" := (bind m (fun x => k))
  (at level 10, x name, m at level 100, k at level 200) : js_scope.
Notation "m ';;' k" := (bind m (fun _ => k))
  (at level 100, k at level 200, right associativity) : js_scope.
Local Open Scope js_scope.

(** [try { m } catch (error) { h error }] *)
Definition try_catch {A} (m : M A) (h : Js.error -> M A) : M A :=
  fun w =>
    match m w with
    | Return a w' => Return a w'
    | Throw e w' => h e w'
    end.

(** [try { m } finally { f }]: [f] runs on every exit of [m]; when [f]
    itself throws, its error replaces the outcome of [m]. *)
Definition finally {A} (m : M A) (f : M unit) : M A :=
  fun w =>
    match m w with
    | Return a w' =>
        match f w' with
        | Return _ w'' => Return a w''
        | Throw e w'' => Throw e w''
        end
    | Throw e w' =>
        match f w' with
        | Return _ w'' => Throw e w''
        | Throw e' w'' => Throw e' w''
        end
    end.

Definition emit (ev : event) : M unit :=
  fun w => Return tt
    {| db := db w; autoinc := autoinc w; connection := connection w;
       in_use := in_use w; trace := trace w ++ [ev] |}.

Definition console_error (what : string) : M unit := emit (Logged what).

Definition ER_DUP_ENTRY : Js.error := Js.Error (Some "ER_DUP_ENTRY").
Definition ERR_INVALID_ARG_TYPE : Js.error := Js.Error (Some "ERR_INVALID_ARG_TYPE").
Definition RangeError : Js.error := Js.Error None.

(** [error.code === 'ER_DUP_ENTRY'] *)
Definition is_dup_entry (error : Js.error) : bool :=
  match Js.code error with
  | Some c => String.eqb c "ER_DUP_ENTRY"
  | None => false
  end.

(** A string parameter is sent as that string.  How the driver renders any
    other value, and what the server then coerces it to, is not in the
    sources: such a statement has the outcome the environment gives it. *)
Definition sql_text (v : option Js.value) : option string :=
  match v with
  | Some (Js.JStr s) => Some s
  | _ => None
  end.

(** ** Responses *)

Record user_row : Type := UserRow {
  row_id : Z; row_first_name : string; row_last_name : string; row_email : string }.

Record key_row : Type := KeyRow {
  row_key_id : Z; row_user_id : Z; row_api_key : string; row_expires_at : string }.

(** The objects passed to [res.json]; a [token] that is [undefined] is
    dropped by the serialisation. *)
Inductive payload : Type :=
| Message (message : string)
| LoggedIn (message : string) (token : option string)
| Lists (users : list user_row) (keys : list key_row)
| Issued (message apiKey expiresAt : string).

Record response : Type := Response { status : Z; json : payload }.

(** ** The application *)

Inductive method : Type := GET | POST.

Inductive endpoint : Type :=
| AdminRegister | AdminLogin | AdminDashboard | UserRegister.

(** What module load fixes once and for all. *)
Record application : Type := Application {
  listen_port : string;
  admin_token : option string;
  route_table : list (method * string * endpoint) }.

Section Server.

Variable e : env.

(** *** Configuration *)

Definition API_PREFIX : string := "/api".

Definition port : string :=
  match process_env e !! "PORT" with
  | Some p => if String.eqb p "" then "3000" else p
  | None => "3000"
  end.

Definition ADMIN_TOKEN_DUMMY : option string := process_env e !! "API_DUMMY_TOKEN".

(** *** The driver *)

(** A call is traced, then fails if a failure is forced on it. *)
Definition call (step : io) : M unit :=
  emit (Call step) ;;
  match fault e step with
  | Some error => throw error
  | None => ret tt
  end.

Definition same_email (a b : string) : bool :=
  String.eqb (collation e a) (collation e b).

Definition with_db (s : store) (c : counters) (w : world) : world :=
  {| db := s; autoinc := c; connection := connection w; in_use := in_use w;
     trace := trace w |}.

Definition with_connection (c : option (option store)) (n : nat) (w : world) : world :=
  {| db := db w; autoinc := autoinc w; connection := c; in_use := n;
     trace := trace w |}.

(** [pool.query('INSERT INTO admins (email, password_hash) VALUES (?, ?)')],
    in autocommit mode. *)
Definition insert_admin (email : option Js.value) (hash : string) : M unit :=
  call InsertAdmin ;;
  fun w =>
    let s := db w in
    let c := autoinc w in
    let c' := {| next_admin := next_admin c + 1; next_user := next_user c;
                 next_key := next_key c |} in
    match sql_text email with
    | Some em =>
        if existsb (fun a => same_email (admin_email a) em) (admins s)
        then Throw ER_DUP_ENTRY (with_db s c' w)
        else Return tt
               (with_db {| admins := admins s ++ [Admin (next_admin c) em hash];
                           users := users s; api_keys := api_keys s |} c' w)
    | None => Return tt (with_db (fst (coerced_insert e InsertAdmin s)) c' w)
    end.

(** [pool.query('SELECT password_hash FROM admins WHERE email = ?')] *)
Definition select_admin (email : option Js.value) : M (list string) :=
  call SelectAdmin ;;
  fun w =>
    match sql_text email with
    | Some em =>
        Return (map password_hash
                  (filter (fun a => same_email (admin_email a) em = true) (admins (db w)))) w
    | None => Return (coerced_select e (db w)) w
    end.

(** [ORDER BY created_at DESC], by insertion; rows of equal time keep
    their order. *)
Fixpoint insert_desc {A} (at_ : A -> Z) (x : A) (l : list A) : list A :=
  match l with
  | [] => [x]
  | y :: l' => if at_ y <? at_ x then x :: l else y :: insert_desc at_ x l'
  end.

Definition order_desc {A} (at_ : A -> Z) (l : list A) : list A :=
  foldr (insert_desc at_) [] l.

Definition select_users : M (list user_row) :=
  call SelectUsers ;;
  fun w =>
    Return (map (fun u => UserRow (user_id u) (first_name u) (last_name u) (user_email u))
              (order_desc user_created_at (users (db w)))) w.

Definition select_keys : M (list key_row) :=
  call SelectKeys ;;
  fun w =>
    Return (map (fun k => KeyRow (key_id k) (key_user_id k) (key_value k) (expires_at k))
              (order_desc key_created_at (api_keys (db w)))) w.

(** [pool.getConnection()], assigned to [connection]. *)
Definition getConnection : M unit :=
  call GetConnection ;;
  fun w => Return tt (with_connection (Some None) (S (in_use w)) w).

(** The state a statement on the connection sees and changes: the working
    copy of the open transaction, else the committed state. *)
Definition visible (w : world) : store :=
  match connection w with
  | Some (Some s) => s
  | _ => db w
  end.

Definition on_connection (s : store) (c : counters) (w : world) : world :=
  match connection w with
  | Some (Some _) =>
      {| db := db w; autoinc := c; connection := Some (Some s);
         in_use := in_use w; trace := trace w |}
  | _ => with_db s c w
  end.

Definition beginTransaction : M unit :=
  call BeginTransaction ;;
  fun w => Return tt (with_connection (Some (Some (db w))) (in_use w) w).

Definition commit : M unit :=
  call Commit ;;
  fun w => Return tt (with_connection (Some None) (in_use w) (with_db (visible w) (autoinc w) w)).

Definition rollback : M unit :=
  call Rollback ;;
  fun w => Return tt (with_connection (Some None) (in_use w) w).

Definition release : M unit :=
  emit Released ;;
  fun w => Return tt (with_connection (connection w) (pred (in_use w)) w).

(** [if (connection) ...] *)
Definition if_connection (m : M unit) : M unit :=
  fun w => match connection w with Some _ => m w | None => Return tt w end.

(** [connection.query('INSERT INTO users (first_name, last_name, email) ...')],
    returning [insertId]. *)
Definition insert_user (first last email : option Js.value) : M Z :=
  call InsertUser ;;
  fun w =>
    let s := visible w in
    let c := autoinc w in
    let c' := {| next_admin := next_admin c; next_user := next_user c + 1;
                 next_key := next_key c |} in
    match sql_text first, sql_text last, sql_text email with
    | Some fn, Some ln, Some em =>
        if existsb (fun u => same_email (user_email u) em) (users s)
        then Throw ER_DUP_ENTRY (on_connection s c' w)
        else Return (next_user c)
               (on_connection
                  {| admins := admins s;
                     users := users s ++ [User (next_user c) fn ln em (store_clock e)];
                     api_keys := api_keys s |} c' w)
    | _, _, _ =>
        let r := coerced_insert e InsertUser s in
        Return (snd r) (on_connection (fst r) c' w)
    end.

(** [connection.query('INSERT INTO api_keys (user_id, api_key, expires_at) ...')] *)
Definition insert_api_key (newUserId : Z) (apiKey expiresAt : string) : M unit :=
  call InsertApiKey ;;
  fun w =>
    let s := visible w in
    let c := autoinc w in
    let c' := {| next_admin := next_admin c; next_user := next_user c;
                 next_key := next_key c + 1 |} in
    if existsb (fun k => String.eqb (key_value k) apiKey) (api_keys s)
    then Throw ER_DUP_ENTRY (on_connection s c' w)
    else Return tt
           (on_connection
              {| admins := admins s; users := users s;
                 api_keys := api_keys s
                   ++ [ApiKey (next_key c) newUserId apiKey expiresAt (store_clock e)] |}
              c' w).

(** *** Utilities *)

(** [crypto.createHash('sha256').update(password).digest('hex')]; [update]
    rejects anything but a string (or a buffer, which JSON cannot carry). *)
Definition hashPassword (password : option Js.value) : M string :=
  match password with
  | Some (Js.JStr s) => emit Hashed ;; ret (Hex.of_bytes (Sha256.digest (utf8 s)))
  | _ => throw ERR_INVALID_ARG_TYPE
  end.

Definition randomBytes (n : nat) : M (list Z) :=
  call RandomBytes ;;
  ret (map (fun i => Z.of_N (Byte.to_N (entropy e i))) (seq 0 n)).

Definition generateApiKey : M string :=
  let! bytes := randomBytes 32 in
  ret (Hex.of_bytes bytes).

(** [date.setDate(date.getDate() + days)] on the time value [tv]: the
    day of the month is read and written in local time. *)
Definition LocalTime (t : Z) : Z := t + LocalTZA e t true.
Definition UTC (t : Z) : Z := t - LocalTZA e t false.

Definition getDate (tv : Z) : Z := Date.DateFromTime (LocalTime tv).

Definition setDate (tv dt : Z) : option Z :=
  let t := LocalTime tv in
  let newDate :=
    Date.MakeDate (Date.MakeDay (Date.YearFromTime t) (Date.MonthFromTime t) dt)
                  (Date.TimeWithinDay t) in
  Date.TimeClip (UTC newDate).

Definition getExpirationDate (days : Z) : M string :=
  let date := clock e in
  match setDate date (getDate date + days) with
  | Some date' =>
      ret (Str.replace "T" " " (Str.slice0 19 (Date.toISOString date')))
  | None => throw RangeError
  end.

(** *** Admin authentication middleware *)

Definition adminAuthMiddleware (authHeader : option string) (next : M response)
  : M response :=
  match authHeader with
  | None => ret (Response 401 (Message "Autentikasi diperlukan."))
  | Some h =>
      if String.eqb h "" || negb (Str.startsWith "Bearer " h)
      then ret (Response 401 (Message "Autentikasi diperlukan."))
      else
        let token := Str.split Str.space h !! 1%nat in
        if bool_decide (token = ADMIN_TOKEN_DUMMY)
        then next
        else ret (Response 403 (Message "Token admin tidak valid."))
  end.

(** *** Handlers *)

Definition adminRegister (body : gmap string Js.value) : M response :=
  let email := body !! "email" in
  let password := body !! "password" in
  if Js.not email || Js.not password
  then ret (Response 400 (Message "Email dan password diperlukan."))
  else
    try_catch
      (let! password_hash := hashPassword password in
       insert_admin email password_hash ;;
       ret (Response 201 (Message "Admin berhasil didaftarkan.")))
      (fun error =>
         if is_dup_entry error
         then ret (Response 409 (Message "Email admin sudah terdaftar."))
         else
           console_error "Error registrasi admin:" ;;
           ret (Response 500 (Message "Gagal mendaftarkan admin."))).

Definition adminLogin (body : gmap string Js.value) : M response :=
  let email := body !! "email" in
  let password := body !! "password" in
  if Js.not email || Js.not password
  then ret (Response 400 (Message "Email dan password diperlukan."))
  else
    try_catch
      (let! rows := select_admin email in
       match rows with
       | [] => ret (Response 401 (Message "Email atau password salah."))
       | admin_hash :: _ =>
           let! inputHash := hashPassword password in
           if String.eqb inputHash admin_hash
           then ret (Response 200 (LoggedIn "Login berhasil." ADMIN_TOKEN_DUMMY))
           else ret (Response 401 (Message "Email atau password salah."))
       end)
      (fun error =>
         console_error "Error login admin:" ;;
         ret (Response 500 (Message "Gagal login."))).

Definition dashboard : M response :=
  try_catch
    (let! users := select_users in
     let! keys := select_keys in
     ret (Response 200 (Lists users keys)))
    (fun error =>
       console_error "Error mengambil data dasbor:" ;;
       ret (Response 500 (Message "Gagal mengambil data dasbor."))).

Definition adminDashboard (authorization : option string) : M response :=
  adminAuthMiddleware authorization dashboard.

(** [let connection;] *)
Definition declare_connection : M unit :=
  fun w => Return tt (with_connection None (in_use w) w).

Definition userRegister (body : gmap string Js.value) : M response :=
  let first_name := body !! "first_name" in
  let last_name := body !! "last_name" in
  let email := body !! "email" in
  if Js.not first_name || Js.not last_name || Js.not email
  then ret (Response 400 (Message "Nama depan, nama belakang, dan email diperlukan."))
  else
    declare_connection ;;
    finally
      (try_catch
         (getConnection ;;
          beginTransaction ;;
          let! newUserId := insert_user first_name last_name email in
          let! apiKey := generateApiKey in
          let! expiresAt := getExpirationDate 30 in
          insert_api_key newUserId apiKey expiresAt ;;
          commit ;;
          ret (Response 201 (Issued "Registrasi berhasil. API Key dibuat." apiKey expiresAt)))
         (fun error =>
            if_connection rollback ;;
            if is_dup_entry error
            then ret (Response 409 (Message "Email pengguna sudah terdaftar."))
            else
              console_error "Error registrasi pengguna:" ;;
              ret (Response 500 (Message "Gagal registrasi pengguna."))))
      (if_connection release).

(** *** Routes *)

(** The registrations [app.post] and [app.get], in source order. *)
Definition routes : list (method * string * endpoint) :=
  [ (POST, API_PREFIX ++ "/admin/register", AdminRegister);
    (POST, API_PREFIX ++ "/admin/login", AdminLogin);
    (GET, API_PREFIX ++ "/admin/dashboard", AdminDashboard);
    (POST, API_PREFIX ++ "/user/register", UserRegister) ].

Definition app : application :=
  {| listen_port := port; admin_token := ADMIN_TOKEN_DUMMY; route_table := routes |}.

End Server.

(** ** Vocabulary of the specification *)

(** The interface table of the specification: method and path of each
    endpoint, without the prefix. *)
Definition interface_table : list (method * string * endpoint) :=
  [ (POST, "/admin/register", AdminRegister);
    (POST, "/admin/login", AdminLogin);
    (GET, "/admin/dashboard", AdminDashboard);
    (POST, "/user/register", UserRegister) ].

(** The text of [s] up to its first space. *)
Fixpoint until_space (s : string) : string :=
  match s with
  | EmptyString => EmptyString
  | String c s' => if Ascii.eqb c Str.space then EmptyString else String c (until_space s')
  end.

(** The projections of the two dashboard queries. *)
Definition user_row_of (u : user) : user_row :=
  UserRow (user_id u) (first_name u) (last_name u) (user_email u).

Definition key_row_of (k : api_key) : key_row :=
  KeyRow (key_id k) (key_user_id k) (key_value k) (expires_at k).

(** The key drawn from the first 32 bytes of the random source. *)
Definition issued_key (e : env) : string :=
  Hex.of_bytes (map (fun i => Z.of_N (Byte.to_N (entropy e i))) (seq 0 32)).

Definition traced (ev : event) (w : world) : world :=
  {| db := db w; autoinc := autoinc w; connection := connection w;
     in_use := in_use w; trace := trace w ++ [ev] |}.

(** The DATETIME literal of the time value [t], read in UTC:
    [YYYY-MM-DD HH:MM:SS]. *)
Definition mysql_datetime (t : Z) : string :=
  (Date.padded 4 (Date.YearFromTime t) ++ "-"
   ++ Date.padded 2 (Date.MonthFromTime t + 1) ++ "-"
   ++ Date.padded 2 (Date.DateFromTime t) ++ " "
   ++ Date.padded 2 (Date.HourFromTime t) ++ ":"
   ++ Date.padded 2 (Date.MinFromTime t) ++ ":"
   ++ Date.padded 2 (Date.SecFromTime t))%string.

(** How the store reads a DATETIME literal: six decimal fields in their
    places, each in its range, taken as a count of seconds since the epoch;
    anything else is not a DATETIME. *)
Definition digit_of (c : ascii) : option Z :=
  let n := Z.of_N (N_of_ascii c) in
  if (48 <=? n) && (n <=? 57) then Some (n - 48) else None.

Fixpoint number (acc : Z) (cs : list ascii) : option Z :=
  match cs with
  | [] => Some acc
  | c :: cs' =>
      match digit_of c with
      | Some d => number (10 * acc + d) cs'
      | None => None
      end
  end.

Definition days_in_month (year month : Z) : Z :=
  Date.monthStart (Date.DaysInYear year - 365) month
  - Date.monthStart (Date.DaysInYear year - 365) (month - 1).

Definition is_char (c : ascii) (lit : string) : bool :=
  String.eqb (String c EmptyString) lit.

Definition datetime_seconds (s : string) : option Z :=
  match list_ascii_of_string s with
  | [y1; y2; y3; y4; p1; m1; m2; p2; d1; d2; p3; h1; h2; p4; i1; i2; p5; s1; s2] =>
      if is_char p1 "-" && is_char p2 "-" && is_char p3 " "
         && is_char p4 ":" && is_char p5 ":"
      then
        match number 0 [y1; y2; y3; y4], number 0 [m1; m2], number 0 [d1; d2],
              number 0 [h1; h2], number 0 [i1; i2], number 0 [s1; s2] with
        | Some y, Some m, Some d, Some h, Some i, Some sec =>
            if (1 <=? m) && (m <=? 12) && (1 <=? d) && (d <=? days_in_month y m)
               && (h <? 24) && (i <? 60) && (sec <? 60)
            then Some (Date.MakeDay y (m - 1) d * 86400 + h * 3600 + i * 60 + sec)
            else None
        | _, _, _, _, _, _ => None
        end
      else None
  | _ => None
  end.

(** The tables a successful registration of a user leaves. *)
Definition registered (e : env) (w : world) (fn ln em apiKey expiresAt : string)
  : store :=
  {| admins := admins (db w);
     users := users (db w)
       ++ [User (next_user (autoinc w)) fn ln em (store_clock e)];
     api_keys := api_keys (db w)
       ++ [ApiKey (next_key (autoinc w)) (next_user (autoinc w)) apiKey expiresAt
             (store_clock e)] |}.

(** A field that holds a non-empty string. *)
Definition text_field (body : gmap string Js.value) (name value : string) : Prop :=
  body !! name = Some (Js.JStr value) /\ value <> "".

(** No failure is forced on any call. *)
Definition undisturbed (e : env) : Prop := forall step, fault e step = None.

(** The required fields of a user registration pass the validation. *)
Definition passes_validation (body : gmap string Js.value) : Prop :=
  Js.not (body !! "first_name") || Js.not (body !! "last_name")
  || Js.not (body !! "email") = false.

(** An environment in which nothing fails: no variable set, the epoch as
    the time, UTC as the zone, a binary collation. *)
Definition quiet : env :=
  {| process_env := ∅; clock := 0; LocalTZA := fun _ _ => 0;
     entropy := fun _ => Byte.x00; store_clock := 0; collation := fun s => s;
     fault := fun _ => None;
     coerced_insert := fun _ s => (s, 0); coerced_select := fun _ => [] |}.

Definition with_process_env (pe : gmap string string) (e : env) : env :=
  {| process_env := pe; clock := clock e; LocalTZA := LocalTZA e;
     entropy := entropy e; store_clock := store_clock e; collation := collation e;
     fault := fault e; coerced_insert := coerced_insert e;
     coerced_select := coerced_select e |}.

Definition with_fault (f : io -> option Js.error) (e : env) : env :=
  {| process_env := process_env e; clock := clock e; LocalTZA := LocalTZA e;
     entropy := entropy e; store_clock := store_clock e; collation := collation e;
     fault := f; coerced_insert := coerced_insert e;
     coerced_select := coerced_select e |}.

Definition with_clock (now : Z) (e : env) : env :=
  {| process_env := process_env e; clock := now; LocalTZA := LocalTZA e;
     entropy := entropy e; store_clock := store_clock e; collation := collation e;
     fault := fault e; coerced_insert := coerced_insert e;
     coerced_select := coerced_select e |}.

(** The digest of a password, as a pure function of its text. *)
Definition sha256_hex (s : string) : string := Hex.of_bytes (Sha256.digest (utf8 s)).

(** The world a computation ends in, however it ends. *)
Definition world_after {A} (r : result A) : world :=
  match r with
  | Return _ w => w
  | Throw _ w => w
  end.

Definition empty_store : store := {| admins := []; users := []; api_keys := [] |}.

Definition fresh : world :=
  {| db := empty_store; autoinc := Counters 1 1 1; connection := None;
     in_use := 0; trace := [] |}.

(** ** Vocabulary of the further properties *)

(** Reading a hexadecimal rendering back, two digits per byte. *)
Definition hex_value (c : ascii) : option Z :=
  let n := Z.of_N (N_of_ascii c) in
  if (48 <=? n) && (n <=? 57) then Some (n - 48)
  else if (97 <=? n) && (n <=? 102) then Some (n - 87)
  else None.

Fixpoint hex_decode (s : string) : option (list Z) :=
  match s with
  | EmptyString => Some []
  | String hi (String lo rest) =>
      match hex_value hi, hex_value lo, hex_decode rest with
      | Some h, Some l, Some bs => Some ((16 * h + l) :: bs)
      | _, _, _ => None
      end
  | String _ EmptyString => None
  end.

(** The requests the four routes receive, and their handlers. *)
Inductive request : Type :=
| PostAdminRegister (body : gmap string Js.value)
| PostAdminLogin (body : gmap string Js.value)
| GetAdminDashboard (authorization : option string)
| PostUserRegister (body : gmap string Js.value).

Definition serve (e : env) (req : request) : M response :=
  match req with
  | PostAdminRegister body => adminRegister e body
  | PostAdminLogin body => adminLogin e body
  | GetAdminDashboard authorization => adminDashboard e authorization
  | PostUserRegister body => userRegister e body
  end.

(** Requests served one after the other, each in the environment it finds. *)
Fixpoint serve_all (requests : list (env * request)) (w : world) : world :=
  match requests with
  | [] => w
  | (e, req) :: rest => serve_all rest (world_after (serve e req w))
  end.

(** A body all of whose fields are strings. *)
Definition text_only (body : gmap string Js.value) : Prop :=
  forall name v, body !! name = Some v -> exists s, v = Js.JStr s.

Definition text_request (req : request) : Prop :=
  match req with
  | PostAdminRegister body | PostAdminLogin body | PostUserRegister body => text_only body
  | GetAdminDashboard _ => True
  end.


(** The tables of [s'] are those of [s] with rows added at the end. *)
Definition grows (s s' : store) : Prop :=
  (exists more, admins s' = (admins s ++ more)%list)
  /\ (exists more, users s' = (users s ++ more)%list)
  /\ (exists more, api_keys s' = (api_keys s ++ more)%list).

(** Newest first. *)
Definition newest_first {A} (at_ : A -> Z) (l : list A) : Prop :=
  Sorted (fun a b => at_ b <= at_ a) l.

(** The statuses a handler answers with. *)
Definition status_of (r : result response) : option Z :=
  match r with
  | Return resp _ => Some (status resp)
  | Throw _ _ => None
  end.

(** The effects a computation added to the trace. *)
Definition added (w : world) (r : result response) : list event :=
  drop (length (trace w)) (trace (world_after r)).




(** * Properties *)

(** ** The embedding on known values *)

(** The digest on the test vectors of FIPS 180-4 and on a message of more
    than one block. *)
Example sha256_abc :
  sha256_hex "abc" = "ba7816bf8f01cfea414140de5dae2223b00361a396177a9cb410ff61f20015ad".
Proof. vm_compute. reflexivity. Qed.

Example sha256_empty :
  sha256_hex "" = "e3b0c44298fc1c149afbf4c8996fb92427ae41e4649b934ca495991b7852b855".
Proof. vm_compute. reflexivity. Qed.

Example sha256_two_blocks :
  sha256_hex "aaaaaaaaaaaaaaaaaaaaaaaaaaaaaaaaaaaaaaaaaaaaaaaaaaaaaaaaaaaaaaaaaaaaaa"
  = "6bd5e5034855a11241f0dee8fc72850ffd9955b28347a86428b5fa19119f6ad0".
Proof. vm_compute. reflexivity. Qed.

Example sha256_first_constants :
  take 2 Sha256.K = [0x428a2f98; 0x71374491] /\ take 1 Sha256.H0 = [0x6a09e667].
Proof. split; reflexivity. Qed.

Example iso_2024 : Date.toISOString 1709294400123 = "2024-03-01T12:00:00.123Z".
Proof. vm_compute. reflexivity. Qed.

Example iso_before_epoch : Date.toISOString (-1) = "1969-12-31T23:59:59.999Z".
Proof. vm_compute. reflexivity. Qed.

Example iso_leap_day : Date.toISOString 951782400000 = "2000-02-29T00:00:00.000Z".
Proof. vm_compute. reflexivity. Qed.

Example iso_last_four_digit_year :
  Date.toISOString 253402300799999 = "9999-12-31T23:59:59.999Z".
Proof. vm_compute. reflexivity. Qed.

Example iso_expanded_year :
  Date.toISOString 253402300800000 = "+010000-01-01T00:00:00.000Z".
Proof. vm_compute. reflexivity. Qed.

Example split_double_space : Str.split Str.space "Bearer  x" = ["Bearer"; ""; "x"].
Proof. vm_compute. reflexivity. Qed.

(** The example of the specification: Ada Lovelace registers on an empty
    store, at noon UTC on the first of March 2024, with a random source
    that yields only zero bytes. *)
Example ada_registers :
  let body : gmap string Js.value :=
    {[ "first_name" := Js.JStr "Ada"; "last_name" := Js.JStr "Lovelace";
       "email" := Js.JStr "ada@example.com" ]} in
  let r := userRegister (with_clock 1709294400123 quiet) body fresh in
  (exists w',
     r = Return (Response 201
                   (Issued "Registrasi berhasil. API Key dibuat."
                      "0000000000000000000000000000000000000000000000000000000000000000"
                      "2024-03-31 12:00:00")) w')
  /\ db (world_after r)
     = {| admins := [];
          users := [User 1 "Ada" "Lovelace" "ada@example.com" 0];
          api_keys :=
            [ApiKey 1 1 "0000000000000000000000000000000000000000000000000000000000000000"
               "2024-03-31 12:00:00" 0] |}
  /\ in_use (world_after r) = 0%nat
  /\ trace (world_after r)
     = [Call GetConnection; Call BeginTransaction; Call InsertUser; Call RandomBytes;
        Call InsertApiKey; Call Commit; Released].
Proof.
  intros body r. split; [eexists; vm_compute; reflexivity |].
  repeat split; vm_compute; reflexivity.
Qed.

(** The same registration when the insert of the key is forced to fail:
    500, the rollback before the release, and no row. *)
Example ada_key_insert_fails :
  let body : gmap string Js.value :=
    {[ "first_name" := Js.JStr "Ada"; "last_name" := Js.JStr "Lovelace";
       "email" := Js.JStr "ada@example.com" ]} in
  let e := with_fault (fun step => if decide (step = InsertApiKey)
                                   then Some (Js.Error None) else None) quiet in
  let r := userRegister e body fresh in
  (exists w', r = Return (Response 500 (Message "Gagal registrasi pengguna.")) w')
  /\ db (world_after r) = empty_store
  /\ trace (world_after r)
     = [Call GetConnection; Call BeginTransaction; Call InsertUser; Call RandomBytes;
        Call InsertApiKey; Call Rollback; Logged "Error registrasi pengguna:"; Released].
Proof.
  intros body e r. split; [eexists; vm_compute; reflexivity |].
  split; vm_compute; reflexivity.
Qed.

(** ** Routes *)

(** C8 (as stated, refuted): there is no configuration key from which the
    prefix of the routes is read with [/api] as its default; whatever the
    process environment holds, the routes are registered under [/api]. *)
Lemma prefix_is_not_configurable :
  ~ (exists key : string,
       forall (e : env) (m : method) (p : string) (ep : endpoint),
         (m, p, ep) ∈ route_table (app e) ->
         exists q, (m, q, ep) ∈ interface_table
                   /\ p = (default "/api" (process_env e !! key) ++ q)%string).
Proof.
  intros [key H].
  destruct (H (with_process_env {[ key := "/v2" ]} quiet) POST
              "/api/admin/register" AdminRegister) as (q & Hq & Hp).
  - cbn. left.
  - cbn in Hp. rewrite lookup_singleton_eq in Hp. cbn in Hp.
    unfold interface_table in Hq.
    repeat (apply elem_of_cons in Hq as [Hq | Hq]);
      try (injection Hq as -> ; discriminate Hp);
      try discriminate Hq.
    inversion Hq.
Qed.

(** C8 (amended): all four endpoints are served under the fixed prefix
    [/api], a constant of the source that no configuration changes: the
    registered routes are the rows of the interface table, in order, each
    path being [/api] followed by the path of the table. *)
Theorem routes_under_api_prefix (e : env) (pe : gmap string string) :
  API_PREFIX = "/api"
  /\ route_table (app (with_process_env pe e))
     = map (fun r => (r.1.1, ("/api" ++ r.1.2)%string, r.2)) interface_table
  /\ route_table (app (with_process_env pe e)) = route_table (app e)
  /\ length (route_table (app e)) = 4%nat.
Proof.
  split; [reflexivity |]. unfold app, route_table. cbn [routes].
  split; [| split]; reflexivity.
Qed.

(** ** Validation of required fields *)

Lemma not_deleted (body : gmap string Js.value) (field : string) :
  Js.not (delete field body !! field) = true.
Proof. by rewrite lookup_delete_eq. Qed.

Lemma delete_other (body : gmap string Js.value) (field other : string) :
  field ≠ other -> delete field body !! other = body !! other.
Proof. intros. by rewrite lookup_delete_ne. Qed.

(** C9: in each of the three POST handlers, a required field that is
    present but falsy (the empty string, [null], [false], [0], [-0]) is
    answered with the handler's 400 exactly as when the field is absent, and
    the world is returned as it was: nothing is hashed, no call reaches the
    store, no row changes. *)
Theorem falsy_required_field_is_rejected
    (e : env) (body : gmap string Js.value) (w : world) (field : string) :
  Js.not (body !! field) = true ->
  (field ∈ ["email"; "password"] ->
     adminRegister e body w
       = Return (Response 400 (Message "Email dan password diperlukan.")) w
     /\ adminRegister e body w = adminRegister e (delete field body) w
     /\ adminLogin e body w
       = Return (Response 400 (Message "Email dan password diperlukan.")) w
     /\ adminLogin e body w = adminLogin e (delete field body) w)
  /\ (field ∈ ["first_name"; "last_name"; "email"] ->
     userRegister e body w
       = Return (Response 400
                   (Message "Nama depan, nama belakang, dan email diperlukan.")) w
     /\ userRegister e body w = userRegister e (delete field body) w).
Proof.
  intros Hfalsy. split; intros Hin.
  - assert (Hbody : Js.not (body !! "email") || Js.not (body !! "password") = true).
    { repeat (apply elem_of_cons in Hin as [-> | Hin]);
        [ by rewrite Hfalsy | rewrite Hfalsy; apply orb_true_r | inversion Hin ]. }
    assert (Hdel : Js.not (delete field body !! "email")
                   || Js.not (delete field body !! "password") = true).
    { repeat (apply elem_of_cons in Hin as [-> | Hin]);
        [ by rewrite not_deleted | rewrite not_deleted; apply orb_true_r
        | inversion Hin ]. }
    unfold adminRegister, adminLogin. rewrite Hbody, Hdel. done.
  - assert (Hbody : Js.not (body !! "first_name") || Js.not (body !! "last_name")
                    || Js.not (body !! "email") = true).
    { repeat (apply elem_of_cons in Hin as [-> | Hin]);
        [ by rewrite Hfalsy
        | rewrite Hfalsy, orb_true_r; done
        | rewrite Hfalsy; apply orb_true_r
        | inversion Hin ]. }
    assert (Hdel : Js.not (delete field body !! "first_name")
                   || Js.not (delete field body !! "last_name")
                   || Js.not (delete field body !! "email") = true).
    { repeat (apply elem_of_cons in Hin as [-> | Hin]);
        [ by rewrite not_deleted
        | rewrite not_deleted, orb_true_r; done
        | rewrite not_deleted; apply orb_true_r
        | inversion Hin ]. }
    unfold userRegister. rewrite Hbody, Hdel. done.
Qed.

(** C9 at a body whose [email] is the empty string. *)
Lemma falsy_required_field_is_rejected_witness :
  let body : gmap string Js.value :=
    {[ "email" := Js.JStr ""; "password" := Js.JStr "rahasia" ]} in
  Js.not (body !! "email") = true
  /\ adminRegister quiet body fresh
     = Return (Response 400 (Message "Email dan password diperlukan.")) fresh.
Proof.
  intros body.
  assert (H : Js.not (body !! "email") = true) by (vm_compute; reflexivity).
  split; [exact H |].
  apply (falsy_required_field_is_rejected quiet body fresh "email" H).
  apply elem_of_cons. left. reflexivity.
Defined.

Lemma falsy_values :
  Js.not None = true
  /\ Js.not (Some Js.JNull) = true
  /\ Js.not (Some (Js.JBool false)) = true
  /\ Js.not (Some (Js.JNum 0%float)) = true
  /\ Js.not (Some (Js.JNum (-0)%float)) = true
  /\ Js.not (Some (Js.JStr "")) = true
  /\ Js.not (Some (Js.JArr [])) = false
  /\ Js.not (Some (Js.JStr "0")) = false.
Proof. repeat split. Qed.

(** ** The bearer token *)

Lemma append_empty_r (s : string) : (s ++ "")%string = s.
Proof. induction s as [| c s IH]; cbn; [done | by rewrite IH]. Qed.

Lemma string_of_snoc (l : list ascii) (c : ascii) (u : string) :
  (string_of_list_ascii (l ++ [c]) ++ u)%string
  = (string_of_list_ascii l ++ String c u)%string.
Proof. induction l as [| d l IH]; cbn; [done | by rewrite IH]. Qed.

(** The first segment of a split ends at the first separator. *)
Lemma split_from_head (acc : list ascii) (s : string) :
  Str.split_from Str.space acc s !! 0%nat
  = Some (string_of_list_ascii (rev acc) ++ until_space s)%string.
Proof.
  revert acc. induction s as [| c s IH]; intros acc; cbn.
  - by rewrite append_empty_r.
  - destruct (Ascii.eqb c Str.space) eqn:Hc; cbn.
    + by rewrite append_empty_r.
    + rewrite IH. cbn. by rewrite string_of_snoc.
Qed.

Lemma bearer_split (rest : string) :
  Str.split Str.space ("Bearer " ++ rest) !! 1%nat = Some (until_space rest).
Proof.
  change (Str.split Str.space ("Bearer " ++ rest))
    with ("Bearer" :: Str.split_from Str.space [] rest).
  cbn. apply (split_from_head [] rest).
Qed.

Lemma startsWith_app (p rest : string) :
  Str.startsWith p (p ++ rest) = true.
Proof.
  unfold Str.startsWith. induction p as [| c p IH]; cbn.
  - by destruct rest.
  - destruct (ascii_dec c c); [exact IH | done].
Qed.

Lemma startsWith_inv (p h : string) :
  Str.startsWith p h = true -> exists rest, h = (p ++ rest)%string.
Proof.
  unfold Str.startsWith. revert h. induction p as [| c p IH]; intros h H.
  - by exists h.
  - destruct h as [| d h]; [done |]. cbn in H.
    destruct (ascii_dec c d) as [-> |]; [| done].
    destruct (IH h H) as [rest ->]. by exists rest.
Qed.

Lemma until_space_token (t rest : string) :
  Str.has Str.space t = false ->
  until_space t = t /\ until_space (t ++ String Str.space rest) = t.
Proof.
  induction t as [| c t IH]; cbn; intros H.
  - done.
  - apply orb_false_iff in H as [Hc Ht]. rewrite Hc.
    destruct (IH Ht) as [-> ->]. done.
Qed.

Lemma middleware_on_bearer (e : env) (next : M response) (w : world) (rest : string) :
  adminAuthMiddleware e (Some ("Bearer " ++ rest)%string) next w
  = if bool_decide (Some (until_space rest) = ADMIN_TOKEN_DUMMY e) then next w
    else Return (Response 403 (Message "Token admin tidak valid.")) w.
Proof.
  unfold adminAuthMiddleware.
  rewrite (startsWith_app "Bearer " rest), bearer_split.
  change (String.eqb ("Bearer " ++ rest) "") with false. cbn [orb negb].
  by destruct (bool_decide _).
Qed.

Lemma middleware_without_bearer (e : env) (next : M response) (w : world) (h : string) :
  ~ (exists rest, h = ("Bearer " ++ rest)%string) ->
  adminAuthMiddleware e (Some h) next w
  = Return (Response 401 (Message "Autentikasi diperlukan.")) w.
Proof.
  intros Hno. unfold adminAuthMiddleware.
  destruct (Str.startsWith "Bearer " h) eqn:Hs.
  - destruct Hno. by apply startsWith_inv.
  - by rewrite orb_true_r.
Qed.

(** C10: the token is the text between the first and the second space of
    the header.  A header ["Bearer " ++ t ++ rest], where [t] has no space
    and [rest] is empty or begins with a space, passes the scheme check
    (never 401): it is let through when [t] is the configured secret and
    answered 403 otherwise, whatever follows [t]; in particular the header
    ["Bearer "] presents the empty token.  The scheme is matched with its
    case: ["bearer " ++ x] is answered 401. *)
Theorem token_is_first_space_delimited_segment
    (e : env) (next : M response) (w : world) (t rest x : string) :
  Str.has Str.space t = false ->
  rest = "" \/ (exists r, rest = String Str.space r) ->
  adminAuthMiddleware e (Some ("Bearer " ++ t ++ rest)%string) next w
    = (if bool_decide (Some t = ADMIN_TOKEN_DUMMY e) then next w
       else Return (Response 403 (Message "Token admin tidak valid.")) w)
  /\ adminAuthMiddleware e (Some "Bearer ") next w
    = (if bool_decide (Some "" = ADMIN_TOKEN_DUMMY e) then next w
       else Return (Response 403 (Message "Token admin tidak valid.")) w)
  /\ adminAuthMiddleware e (Some ("bearer " ++ x)%string) next w
    = Return (Response 401 (Message "Autentikasi diperlukan.")) w.
Proof.
  intros Ht Hrest. split; [| split].
  - rewrite middleware_on_bearer.
    destruct (until_space_token t "" Ht) as [Hsolo _].
    destruct Hrest as [-> | [r ->]].
    + by rewrite append_empty_r, Hsolo.
    + by rewrite (proj2 (until_space_token t r Ht)).
  - apply (middleware_on_bearer e next w "").
  - reflexivity.
Qed.

(** C10 at the header [Bearer s3cret and more] with the secret [s3cret]. *)
Lemma token_is_first_space_delimited_segment_witness :
  let e := with_process_env {[ "API_DUMMY_TOKEN" := "s3cret" ]} quiet in
  Str.has Str.space "s3cret" = false
  /\ adminAuthMiddleware e (Some "Bearer s3cret and more") (dashboard e) fresh
     = dashboard e fresh.
Proof.
  intros e.
  assert (H : Str.has Str.space "s3cret" = false) by reflexivity.
  split; [exact H |].
  exact (proj1 (token_is_first_space_delimited_segment e (dashboard e) fresh
                  "s3cret" " and more" "" H
                  (or_intror (ex_intro _ "and more" eq_refl)))).
Defined.

(** ** The dashboard *)

Lemma insert_desc_perm {A} (at_ : A -> Z) (x : A) (l : list A) :
  insert_desc at_ x l ≡ₚ x :: l.
Proof.
  induction l as [| y l IH]; cbn; [done |].
  destruct (at_ y <? at_ x); [done |].
  rewrite IH. apply Permutation_swap.
Qed.

Lemma order_desc_perm {A} (at_ : A -> Z) (l : list A) : order_desc at_ l ≡ₚ l.
Proof.
  induction l as [| x l IH]; cbn; [done |].
  by rewrite insert_desc_perm, IH.
Qed.

Lemma dashboard_run (e : env) (w : world) :
  match fault e SelectUsers, fault e SelectKeys with
  | None, None =>
      exists w' us ks,
        dashboard e w = Return (Response 200 (Lists us ks)) w'
        /\ us ≡ₚ map user_row_of (users (db w))
        /\ ks ≡ₚ map key_row_of (api_keys (db w))
        /\ db w' = db w
  | _, _ =>
      exists w',
        dashboard e w = Return (Response 500 (Message "Gagal mengambil data dasbor.")) w'
        /\ db w' = db w
  end.
Proof.
  unfold dashboard, try_catch, bind, select_users, select_keys, call, bind, emit.
  destruct (fault e SelectUsers) eqn:Hu; cbn.
  - eexists. split; reflexivity.
  - destruct (fault e SelectKeys) eqn:Hk; cbn.
    + eexists. split; reflexivity.
    + eexists _, _, _. split; [reflexivity |].
      split; [| split; [| reflexivity]];
        apply Permutation_map, order_desc_perm.
Qed.

(** C4: on the dashboard route the middleware answers 401 when the
    Authorization header is absent or does not begin with ["Bearer "],
    answers 403 when it does and the presented token is not the configured
    secret, and runs the handler exactly when the token is the secret; the
    handler then answers 200 with the list of all users and the list of all
    keys, or 500 when one of its two reads fails. *)
Theorem dashboard_access_control
    (e : env) (w : world) (authorization : option string) :
  (authorization = None
   \/ (exists h, authorization = Some h /\ ~ exists rest, h = ("Bearer " ++ rest)%string) ->
   forall next,
     adminAuthMiddleware e authorization next w
     = Return (Response 401 (Message "Autentikasi diperlukan.")) w)
  /\ (forall rest,
        authorization = Some ("Bearer " ++ rest)%string ->
        Some (until_space rest) ≠ ADMIN_TOKEN_DUMMY e ->
        forall next,
          adminAuthMiddleware e authorization next w
          = Return (Response 403 (Message "Token admin tidak valid.")) w)
  /\ (forall rest,
        authorization = Some ("Bearer " ++ rest)%string ->
        Some (until_space rest) = ADMIN_TOKEN_DUMMY e ->
        (forall next, adminAuthMiddleware e authorization next w = next w)
        /\ adminDashboard e authorization w = dashboard e w
        /\ (fault e SelectUsers = None -> fault e SelectKeys = None ->
            exists w' us ks,
              adminDashboard e authorization w = Return (Response 200 (Lists us ks)) w'
              /\ us ≡ₚ map user_row_of (users (db w))
              /\ ks ≡ₚ map key_row_of (api_keys (db w)))).
Proof.
  split; [| split].
  - intros [-> | (h & -> & Hno)] next; [reflexivity |].
    by apply middleware_without_bearer.
  - intros rest -> Hne next. rewrite middleware_on_bearer.
    by rewrite bool_decide_eq_false_2.
  - intros rest -> Heq.
    assert (Hpass : forall next,
               adminAuthMiddleware e (Some ("Bearer " ++ rest)%string) next w = next w).
    { intros next. rewrite middleware_on_bearer. by rewrite bool_decide_eq_true_2. }
    split; [exact Hpass | split; [apply Hpass |]].
    intros Hu Hk. unfold adminDashboard. rewrite Hpass.
    pose proof (dashboard_run e w) as Hrun. rewrite Hu, Hk in Hrun.
    destruct Hrun as (w' & us & ks & Hrun & Hus & Hks & _).
    by exists w', us, ks.
Qed.

(** C4 at three requests: no header, a wrong token, the right token. *)
Lemma dashboard_access_control_witness :
  let e := with_process_env {[ "API_DUMMY_TOKEN" := "s3cret" ]} quiet in
  adminDashboard e None fresh
    = Return (Response 401 (Message "Autentikasi diperlukan.")) fresh
  /\ adminDashboard e (Some "Bearer guess") fresh
    = Return (Response 403 (Message "Token admin tidak valid.")) fresh
  /\ adminDashboard e (Some "Bearer s3cret") fresh = dashboard e fresh.
Proof.
  intros e. split; [| split].
  - exact (proj1 (dashboard_access_control e fresh None) (or_introl eq_refl) (dashboard e)).
  - refine (proj1 (proj2 (dashboard_access_control e fresh (Some "Bearer guess")))
              "guess" eq_refl _ (dashboard e)).
    vm_compute. discriminate.
  - refine (proj1 (proj2 (proj2 (proj2 (dashboard_access_control e fresh
              (Some "Bearer s3cret"))) "s3cret" eq_refl _))).
    vm_compute. reflexivity.
Defined.

(** ** API keys *)

Lemma of_bytes_length (bs : list Z) :
  String.length (Hex.of_bytes bs) = (2 * length bs)%nat.
Proof. induction bs as [| b bs IH]; cbn; [done | rewrite IH; lia]. Qed.

(** A boolean property checked on every number below [n] holds of each. *)
Lemma below_forallb (f : Z -> bool) (n : nat) :
  forallb f (map Z.of_nat (seq 0 n)) = true ->
  forall k, 0 <= k < Z.of_nat n -> f k = true.
Proof.
  intros H k Hk. rewrite forallb_forall in H. apply H.
  apply in_map_iff. exists (Z.to_nat k). split; [lia | apply in_seq; lia].
Qed.

Lemma digit_is_hex (n : Z) : 0 <= n < 16 -> Hex.is_hex (Hex.digit n) = true.
Proof.
  apply (below_forallb (fun k => Hex.is_hex (Hex.digit k)) 16). reflexivity.
Qed.

Lemma of_bytes_hex (bs : list Z) :
  Forall (fun b => 0 <= b < 256) bs -> Hex.all_hex (Hex.of_bytes bs) = true.
Proof.
  induction 1 as [| b bs Hb _ IH]; [done |].
  cbn [Hex.of_bytes Hex.of_byte String.append Hex.all_hex].
  rewrite IH, !digit_is_hex; [done | |].
  - apply Z.mod_pos_bound. lia.
  - split; [apply Z.div_pos; lia | apply Z.div_lt_upper_bound; lia].
Qed.

Lemma issued_key_shape (e : env) :
  String.length (issued_key e) = 64%nat /\ Hex.all_hex (issued_key e) = true.
Proof.
  unfold issued_key. split.
  - by rewrite of_bytes_length, length_map, length_seq.
  - apply of_bytes_hex, Forall_map, Forall_forall. intros i _. cbn.
    pose proof (Byte.to_N_bounded (entropy e i)). lia.
Qed.

Lemma generateApiKey_run (e : env) (w : world) :
  generateApiKey e w
  = match fault e RandomBytes with
    | Some error => Throw error (traced (Call RandomBytes) w)
    | None => Return (issued_key e) (traced (Call RandomBytes) w)
    end.
Proof.
  unfold generateApiKey, randomBytes, call, bind, emit. cbn.
  by destruct (fault e RandomBytes).
Qed.

(** ** Calendar arithmetic *)

Module DateFacts.
Import Date.

Lemma year_spec (t : Z) :
  DayFromYear (YearFromTime t) <= Day t < DayFromYear (YearFromTime t + 1).
Proof.
  unfold YearFromTime. generalize (Day t) as d. intros d. cbn zeta.
  set (y := 1970 + 400 * d / 146097).
  assert (Hy : 146097 * (y - 1970) <= 400 * d < 146097 * (y - 1970) + 146097).
  { unfold y. pose proof (Z.div_mod (400 * d) 146097 ltac:(lia)).
    pose proof (Z.mod_pos_bound (400 * d) 146097 ltac:(lia)). lia. }
  clearbody y.
  destruct (Z.ltb_spec d (DayFromYear y)) as [Hlt | Hge];
    [| destruct (Z.leb_spec (DayFromYear (y + 1)) d) as [Hle | Hgt]].
  - replace (y - 1 + 1) with y by lia. split; [| lia].
    unfold DayFromYear in *. Z.to_euclidean_division_equations. lia.
  - split; [lia |].
    unfold DayFromYear in *. Z.to_euclidean_division_equations. lia.
  - lia.
Qed.

Lemma DayFromYear_succ (y : Z) : DayFromYear (y + 1) = DayFromYear y + DaysInYear y.
Proof.
  unfold DayFromYear, DaysInYear.
  destruct (Z.eqb_spec (y mod 4) 0), (Z.eqb_spec (y mod 100) 0),
    (Z.eqb_spec (y mod 400) 0); cbn [negb];
    Z.to_euclidean_division_equations; lia.
Qed.

Lemma DaysInYear_cases (y : Z) : DaysInYear y = 365 \/ DaysInYear y = 366.
Proof.
  unfold DaysInYear.
  destruct (y mod 4 =? 0), (y mod 100 =? 0), (y mod 400 =? 0); cbn; lia.
Qed.

Lemma DayFromYear_mono (a b : Z) : a <= b -> DayFromYear a <= DayFromYear b.
Proof. intros H. unfold DayFromYear. Z.to_euclidean_division_equations. lia. Qed.

Lemma DayWithinYear_range (t : Z) : 0 <= DayWithinYear t < 365 + InLeapYear t.
Proof.
  unfold DayWithinYear, InLeapYear.
  pose proof (year_spec t) as H. rewrite DayFromYear_succ in H. lia.
Qed.

Lemma InLeapYear_cases (t : Z) : InLeapYear t = 0 \/ InLeapYear t = 1.
Proof. unfold InLeapYear. destruct (DaysInYear_cases (YearFromTime t)); lia. Qed.

Lemma MonthFromTime_range (t : Z) : 0 <= MonthFromTime t <= 11.
Proof. unfold MonthFromTime. cbn zeta. repeat case_match; lia. Qed.

Ltac closed_month_starts :=
  repeat match goal with
    | |- context [monthStart ?a ?b] =>
        let v := eval vm_compute in (monthStart a b) in
        change (monthStart a b) with v
    end.

Ltac closed_month_starts_in H :=
  repeat match type of H with
    | context [monthStart ?a ?b] =>
        let v := eval vm_compute in (monthStart a b) in
        change (monthStart a b) with v in H
    end.

(** The day of the month lies within its month. *)
Lemma DateFromTime_range (t : Z) :
  1 <= DateFromTime t
  <= monthStart (InLeapYear t) (MonthFromTime t + 1)
     - monthStart (InLeapYear t) (MonthFromTime t).
Proof.
  unfold DateFromTime, MonthFromTime. cbn zeta.
  pose proof (DayWithinYear_range t) as Hd.
  destruct (InLeapYear_cases t) as [Hl | Hl]; rewrite Hl in *;
    repeat match goal with
      | |- context [if ?a <? ?b then _ else _] =>
          destruct (Z.ltb_spec a b); [closed_month_starts; lia |]
      end; closed_month_starts; lia.
Qed.

(** The year is the calendar year: bounds on the time bound it. *)
Lemma YearFromTime_bounds (t a b : Z) :
  TimeFromYear a <= t < TimeFromYear b ->
  a <= YearFromTime t < b.
Proof.
  intros H. pose proof (year_spec t) as Hy.
  assert (Hday : DayFromYear a <= Day t < DayFromYear b).
  { unfold TimeFromYear, Day, msPerDay in *. Z.to_euclidean_division_equations. lia. }
  split.
  - destruct (Z.le_gt_cases a (YearFromTime t)) as [| Hlt]; [done |].
    pose proof (DayFromYear_mono (YearFromTime t + 1) a ltac:(lia)). lia.
  - destruct (Z.lt_ge_cases (YearFromTime t) b) as [| Hge]; [done |].
    pose proof (DayFromYear_mono b (YearFromTime t) ltac:(lia)). lia.
Qed.

(** Rebuilding the day from its own year, month and date, [days] later. *)
Lemma MakeDay_shift (t days : Z) :
  MakeDay (YearFromTime t) (MonthFromTime t) (DateFromTime t + days) = Day t + days.
Proof.
  unfold MakeDay. cbn zeta.
  pose proof (MonthFromTime_range t) as Hm.
  rewrite (Z.div_small (MonthFromTime t) 12), (Z.mod_small (MonthFromTime t) 12) by lia.
  rewrite Z.add_0_r.
  unfold DateFromTime, DayWithinYear, InLeapYear. lia.
Qed.

Lemma MakeDate_shift (t days : Z) :
  MakeDate (Day t + days) (TimeWithinDay t) = t + days * msPerDay.
Proof.
  unfold MakeDate, Day, TimeWithinDay, msPerDay.
  Z.to_euclidean_division_equations. lia.
Qed.

End DateFacts.

(** ** The expiration date *)

Section Expiration.
Import Date DateFacts.

#[local] Arguments decimal_digit : simpl never.

Lemma decimal_digit_not_T (n : Z) : Ascii.eqb (decimal_digit n) "T" = false.
Proof.
  unfold decimal_digit.
  pose proof (below_forallb
                (fun k => negb (Ascii.eqb (ascii_of_N (Z.to_N (48 + k))) "T")) 10
                eq_refl (n mod 10) (Z.mod_pos_bound n 10 eq_refl)) as H.
  by apply negb_true_iff in H.
Qed.

Lemma replace_digit (n : Z) (s : string) :
  Str.replace "T" " " (String (decimal_digit n) s)
  = String (decimal_digit n) (Str.replace "T" " " s).
Proof. cbn [Str.replace]. by rewrite decimal_digit_not_T. Qed.

Lemma replace_skip (c : ascii) (s : string) :
  Ascii.eqb c "T" = false ->
  Str.replace "T" " " (String c s) = String c (Str.replace "T" " " s).
Proof. intros H. cbn [Str.replace]. by rewrite H. Qed.

Lemma digit_of_decimal (n : Z) : digit_of (decimal_digit n) = Some (n mod 10).
Proof.
  unfold decimal_digit.
  pose proof (below_forallb
                (fun k => match digit_of (ascii_of_N (Z.to_N (48 + k))) with
                          | Some d => d =? k
                          | None => false
                          end) 10 eq_refl (n mod 10)
                (Z.mod_pos_bound n 10 eq_refl)) as H.
  cbn beta in H. destruct (digit_of _) as [d |]; [| done].
  apply Z.eqb_eq in H. by subst d.
Qed.

(** Slicing off the milliseconds and replacing the [T]. *)
Lemma iso_to_datetime (t : Z) :
  0 <= YearFromTime t <= 9999 ->
  Str.replace "T" " " (Str.slice0 19 (toISOString t)) = mysql_datetime t.
Proof.
  intros Hy. unfold toISOString, mysql_datetime. cbn zeta.
  destruct (Z.leb_spec 0 (YearFromTime t)); [| lia].
  destruct (Z.leb_spec (YearFromTime t) 9999); [| lia].
  cbn [andb].
  generalize (YearFromTime t) (MonthFromTime t + 1) (DateFromTime t)
    (HourFromTime t) (MinFromTime t) (SecFromTime t) (msFromTime t).
  intros y mo d h mi sec ms.
  unfold Str.slice0.
  cbn [padded String.append String.substring].
  repeat (rewrite replace_digit || rewrite (replace_skip "-") by reflexivity).
  reflexivity.
Qed.

Lemma number4 (a b c d : Z) :
  number 0 [decimal_digit a; decimal_digit b; decimal_digit c; decimal_digit d]
  = Some (10 * (10 * (10 * (10 * 0 + a mod 10) + b mod 10) + c mod 10) + d mod 10).
Proof. cbn [number]. by rewrite !digit_of_decimal. Qed.

Lemma number2 (a b : Z) :
  number 0 [decimal_digit a; decimal_digit b]
  = Some (10 * (10 * 0 + a mod 10) + b mod 10).
Proof. cbn [number]. by rewrite !digit_of_decimal. Qed.

Lemma digits4 (y : Z) :
  0 <= y <= 9999 ->
  10 * (10 * (10 * (10 * 0 + (y / 10 / 10 / 10) mod 10) + (y / 10 / 10) mod 10)
        + (y / 10) mod 10) + y mod 10 = y.
Proof. intros H. Z.to_euclidean_division_equations. lia. Qed.

Lemma digits2 (n : Z) :
  0 <= n <= 99 -> 10 * (10 * 0 + (n / 10) mod 10) + n mod 10 = n.
Proof. intros H. Z.to_euclidean_division_equations. lia. Qed.

Lemma seconds_of_fields (t : Z) :
  Day t * 86400 + HourFromTime t * 3600 + MinFromTime t * 60 + SecFromTime t
  = t / 1000.
Proof.
  unfold Day, HourFromTime, MinFromTime, SecFromTime, msPerDay, msPerHour,
    msPerMinute, msPerSecond.
  Z.to_euclidean_division_equations. lia.
Qed.

(** The literal is read back as the time it was made from, to the second. *)
Lemma datetime_seconds_of_datetime (t : Z) :
  0 <= YearFromTime t <= 9999 ->
  datetime_seconds (mysql_datetime t) = Some (t / 1000).
Proof.
  intros Hy.
  pose proof (MonthFromTime_range t) as Hm.
  pose proof (DateFromTime_range t) as Hd.
  pose proof (MakeDay_shift t 0) as Hday. rewrite !Z.add_0_r in Hday.
  pose proof (seconds_of_fields t) as Hsec.
  assert (Hdim : days_in_month (YearFromTime t) (MonthFromTime t + 1)
                 = monthStart (InLeapYear t) (MonthFromTime t + 1)
                   - monthStart (InLeapYear t) (MonthFromTime t)).
  { unfold days_in_month, InLeapYear. by rewrite Z.add_simpl_r. }
  assert (Hd31 : DateFromTime t <= 99).
  { destruct (InLeapYear_cases t) as [Hl | Hl]; rewrite Hl in Hd;
      assert (Hc : MonthFromTime t = 0 \/ MonthFromTime t = 1 \/ MonthFromTime t = 2
                   \/ MonthFromTime t = 3 \/ MonthFromTime t = 4 \/ MonthFromTime t = 5
                   \/ MonthFromTime t = 6 \/ MonthFromTime t = 7 \/ MonthFromTime t = 8
                   \/ MonthFromTime t = 9 \/ MonthFromTime t = 10
                   \/ MonthFromTime t = 11) by lia;
      repeat (destruct Hc as [Hc | Hc];
              [rewrite Hc in Hd; closed_month_starts_in Hd; lia |]);
      rewrite Hc in Hd; closed_month_starts_in Hd; lia. }
  assert (Hh : 0 <= HourFromTime t < 24) by (apply Z.mod_pos_bound; lia).
  assert (Hi : 0 <= MinFromTime t < 60) by (apply Z.mod_pos_bound; lia).
  assert (Hs : 0 <= SecFromTime t < 60) by (apply Z.mod_pos_bound; lia).
  rewrite <- Hsec, <- Hday. clear Hsec Hday.
  unfold mysql_datetime, datetime_seconds.
  cbn [padded String.append list_ascii_of_string].
  change (is_char "-" "-") with true. change (is_char " " " ") with true.
  change (is_char ":" ":") with true. cbn [andb].
  rewrite number4, !number2.
  rewrite (digits4 _ Hy), (digits2 (MonthFromTime t + 1)), (digits2 (DateFromTime t)),
    (digits2 (HourFromTime t)), (digits2 (MinFromTime t)), (digits2 (SecFromTime t))
    by lia.
  rewrite Hdim, Z.add_simpl_r.
  destruct (Z.leb_spec 1 (MonthFromTime t + 1)); [| lia].
  destruct (Z.leb_spec (MonthFromTime t + 1) 12); [| lia].
  destruct (Z.leb_spec 1 (DateFromTime t)); [| lia].
  destruct (Z.leb_spec (DateFromTime t)
              (monthStart (InLeapYear t) (MonthFromTime t + 1)
               - monthStart (InLeapYear t) (MonthFromTime t))); [| lia].
  destruct (Z.ltb_spec (HourFromTime t) 24); [| lia].
  destruct (Z.ltb_spec (MinFromTime t) 60); [| lia].
  destruct (Z.ltb_spec (SecFromTime t) 60); [| lia].
  reflexivity.
Qed.

End Expiration.

Lemma setDate_shift (e : env) (tv days : Z) :
  setDate e tv (getDate e tv + days)
  = Date.TimeClip (UTC e (LocalTime e tv + days * Date.msPerDay)).
Proof.
  unfold setDate, getDate.
  by rewrite DateFacts.MakeDay_shift, DateFacts.MakeDate_shift.
Qed.

Lemma getExpirationDate_run (e : env) (days : Z) :
  (exists s, forall w, getExpirationDate e days w = Return s w)
  \/ (forall w, getExpirationDate e days w = Throw RangeError w).
Proof.
  unfold getExpirationDate.
  destruct (setDate _ _ _); [left; eexists; intros w; reflexivity | by right].
Qed.

(** ** Registration of a user *)

Lemma truthy_text (body : gmap string Js.value) (name value : string) :
  text_field body name value -> Js.not (body !! name) = false.
Proof.
  intros [-> Hne]. cbn. destruct value; [done | reflexivity].
Qed.

#[local] Arguments generateApiKey : simpl never.
#[local] Arguments getExpirationDate : simpl never.
#[local] Arguments issued_key : simpl never.

Ltac run_step :=
  match goal with
  | |- context [match fault ?e ?s with _ => _ end] => destruct (fault e s) eqn:?
  | |- context [generateApiKey ?e ?w] => rewrite (generateApiKey_run e w)
  | H : forall w, getExpirationDate ?e ?d w = _ |- context [getExpirationDate ?e ?d ?w0] =>
      rewrite (H w0)
  | |- context [if existsb ?f ?l then _ else _] => destruct (existsb f l) eqn:?
  | |- context [if is_dup_entry ?x then _ else _] => destruct (is_dup_entry x) eqn:?
  | |- context [match sql_text ?o with _ => _ end] => destruct (sql_text o) eqn:?
  end; cbn.

Ltac unfold_handler :=
  unfold finally, try_catch, bind, declare_connection, getConnection, beginTransaction,
    insert_user, insert_api_key, commit, rollback, release, if_connection, call, emit,
    console_error, emit, ret, throw, bind.



(** Whatever the body holds: the pool is left as it was found, a
    connection that was checked out is released last, and a 201 carries
    the key that was drawn. *)
Lemma userRegister_always (e : env) (body : gmap string Js.value) (w : world) :
  match userRegister e body w with
  | Return r w' =>
      in_use w' = in_use w
      /\ (passes_validation body -> fault e GetConnection = None ->
          exists evs, trace w' = (trace w ++ evs)%list
                      /\ head evs = Some (Call GetConnection)
                      /\ last evs = Some Released)
      /\ (status r = 201 ->
          exists expiresAt,
            json r = Issued "Registrasi berhasil. API Key dibuat." (issued_key e) expiresAt)
  | Throw error w' =>
      in_use w' = in_use w
      /\ (passes_validation body -> fault e GetConnection = None ->
          exists evs, trace w' = (trace w ++ evs)%list
                      /\ head evs = Some (Call GetConnection)
                      /\ last evs = Some Released)
  end.
Proof.
  unfold userRegister, passes_validation.
  generalize (body !! "first_name") (body !! "last_name") (body !! "email").
  intros first last email.
  destruct (Js.not first || Js.not last || Js.not email).
  { cbn. split; [done | split; [done | intros H; discriminate H]]. }
  unfold_handler.
  destruct (getExpirationDate_run e 30) as [[expiresAt Hexp] | Hexp];
    cbn; repeat run_step.
  all: repeat split; try done.
  all: try (intros H; discriminate H).
  all: try (intros _ H; discriminate H).
  all: try (intros _ _; eexists; rewrite <- !app_assoc;
            split; [reflexivity | split; reflexivity]).
  all: intros _; by eexists.
Qed.

(** C5: what [generateApiKey] returns is a string of 64 characters, all of
    them hexadecimal digits (it fails only if the random source does), and
    the key in the 201 of a user registration is that string. *)
Theorem api_key_is_64_hex_digits
    (e : env) (w : world) (body : gmap string Js.value) :
  match generateApiKey e w with
  | Return apiKey _ =>
      apiKey = Hex.of_bytes (map (fun i => Z.of_N (Byte.to_N (entropy e i))) (seq 0 32))
      /\ String.length apiKey = 64%nat /\ Hex.all_hex apiKey = true
  | Throw error _ => fault e RandomBytes = Some error
  end
  /\ match userRegister e body w with
     | Return r _ =>
         status r = 201 ->
         exists message apiKey expiresAt,
           json r = Issued message apiKey expiresAt
           /\ String.length apiKey = 64%nat /\ Hex.all_hex apiKey = true
     | Throw _ _ => True
     end.
Proof.
  split.
  - rewrite generateApiKey_run. destruct (fault e RandomBytes); [done |].
    split; [reflexivity | apply issued_key_shape].
  - pose proof (userRegister_always e body w) as H.
    destruct (userRegister e body w) as [r w' |]; [| done].
    intros H201. destruct H as (_ & _ & H). destruct (H H201) as [expiresAt ->].
    eexists _, _, _. split; [reflexivity | apply issued_key_shape].
Qed.

(** C7: the handler leaves as many connections checked out as it found,
    however it ends (a response or a rejected promise, whatever the body
    holds), and when it has checked a connection out, releasing it is the
    last thing it does. *)
Theorem connection_always_released
    (e : env) (body : gmap string Js.value) (w : world) :
  in_use (world_after (userRegister e body w)) = in_use w
  /\ (passes_validation body -> fault e GetConnection = None ->
      exists evs,
        trace (world_after (userRegister e body w)) = (trace w ++ evs)%list
        /\ head evs = Some (Call GetConnection)
        /\ last evs = Some Released)
  /\ (~ passes_validation body \/ fault e GetConnection <> None ->
      forall evs,
        trace (world_after (userRegister e body w)) = (trace w ++ evs)%list ->
        Released ∉ evs).
Proof.
  pose proof (userRegister_always e body w) as H.
  split; [| split].
  - by destruct (userRegister e body w); destruct H.
  - destruct (userRegister e body w); cbn;
      [destruct H as (_ & H & _) | destruct H as (_ & H)]; exact H.
  - clear H. unfold userRegister, passes_validation.
    generalize (body !! "first_name") (body !! "last_name") (body !! "email").
    intros first last email Hnot evs.
    destruct (Js.not first || Js.not last || Js.not email) eqn:Hv.
    + cbn. intros Hevs.
      assert (evs = []) as ->; [| by apply not_elem_of_nil].
      apply (app_inv_head (trace w)). by rewrite app_nil_r.
    + destruct Hnot as [Hnot | Hnot]; [done |].
      unfold_handler. cbn.
      destruct (fault e GetConnection) as [error |] eqn:Hf; [| done].
      cbn. repeat run_step; rewrite <- ?app_assoc; intros Hevs;
        apply app_inv_head in Hevs; subst evs; cbn;
        intros Hin; repeat (apply elem_of_cons in Hin as [Hin | Hin]; [done |]);
        by apply not_elem_of_nil in Hin.
Qed.

(** C7 at a registration whose key insert is forced to fail. *)
Lemma connection_always_released_witness :
  let body : gmap string Js.value :=
    {[ "first_name" := Js.JStr "Ada"; "last_name" := Js.JStr "Lovelace";
       "email" := Js.JStr "ada@example.com" ]} in
  let e := with_fault (fun step => if decide (step = InsertApiKey)
                                   then Some (Js.Error None) else None) quiet in
  exists evs,
    trace (world_after (userRegister e body fresh)) = (trace fresh ++ evs)%list
    /\ head evs = Some (Call GetConnection)
    /\ last evs = Some Released.
Proof.
  intros body e.
  pose proof (connection_always_released e body fresh) as H.
  destruct H as (_ & Hreleased & _).
  apply Hreleased.
  - vm_compute. reflexivity.
  - reflexivity.
Defined.




(** ** Admin registration and login *)

Lemma hashPassword_run (password : string) (w : world) :
  hashPassword (Some (Js.JStr password)) w
  = Return (sha256_hex password) (traced Hashed w).
Proof. reflexivity. Qed.

Lemma hashPassword_rejects (password : option Js.value) (w : world) :
  sql_text password = None ->
  hashPassword password w = Throw ERR_INVALID_ARG_TYPE w.
Proof. by destruct password as [[] |]. Qed.

#[local] Arguments sha256_hex : simpl never.
#[local] Arguments hashPassword : simpl never.

Lemma sql_text_inv (v : option Js.value) (s : string) :
  sql_text v = Some s -> v = Some (Js.JStr s).
Proof. destruct v as [[] |]; cbn; congruence. Qed.

Lemma not_text (s : string) : Js.not (Some (Js.JStr s)) = false -> s <> "".
Proof. by destruct s. Qed.

Lemma same_email_refl (e : env) (em : string) : same_email e em em = true.
Proof. unfold same_email. apply String.eqb_refl. Qed.

(** The rows a lookup finds once a row of that email has been added to a
    table that had none. *)
Lemma filter_fresh_row (P : admin -> bool) (l : list admin) (x : admin) :
  existsb P l = false -> P x = true ->
  filter (fun a => P a = true) (l ++ [x])%list = [x].
Proof.
  intros Hl Hx. induction l as [| y l IH].
  - change ([] ++ [x])%list with [x]. by rewrite filter_cons_True, filter_nil.
  - cbn in Hl. apply orb_false_iff in Hl as [Hy Hl].
    rewrite <- app_comm_cons, filter_cons_False by (rewrite Hy; done).
    by apply IH.
Qed.

(** What a 201 of the admin registration means for a string email. *)
Lemma adminRegister_accepted
    (e : env) (body : gmap string Js.value) (w w' : world) (em : string) (r : response) :
  text_field body "email" em ->
  adminRegister e body w = Return r w' ->
  status r = 201 ->
  exists password,
    text_field body "password" password
    /\ existsb (fun a => same_email e (admin_email a) em) (admins (db w)) = false
    /\ admins (db w')
       = (admins (db w) ++ [Admin (next_admin (autoinc w)) em (sha256_hex password)])%list.
Proof.
  intros [Hem Hne] Hrun H201. revert Hrun. unfold adminRegister. rewrite Hem.
  destruct (Js.not (Some (Js.JStr em)) || Js.not (body !! "password")) eqn:Hv.
  { intros [= <- <-]. discriminate H201. }
  apply orb_false_iff in Hv as [_ Hv].
  unfold try_catch, bind.
  destruct (sql_text (body !! "password")) as [pw |] eqn:Hp.
  - apply sql_text_inv in Hp. rewrite Hp in *. rewrite hashPassword_run.
    unfold insert_admin, call, bind, emit, ret, throw. cbn.
    destruct (fault e InsertAdmin); cbn.
    + destruct (is_dup_entry _); cbn; intros [= <- <-]; discriminate H201.
    + destruct (existsb _ _) eqn:Hdup; cbn; [intros [= <- <-]; discriminate H201 |].
      intros [= <- <-]. exists pw. split; [| by split].
      split; [exact Hp | by apply not_text].
  - rewrite hashPassword_rejects by done. cbn. intros [= <- <-]. discriminate H201.
Qed.

(** For string credentials, the two failures of a login have one answer. *)
Lemma login_failures_with_text_password
    (e : env) (body : gmap string Js.value) (w : world) (em pw : string) :
  text_field body "email" em ->
  text_field body "password" pw ->
  fault e SelectAdmin = None ->
  (filter (fun a => same_email e (admin_email a) em = true) (admins (db w)) = []
   \/ exists a rest,
        filter (fun a => same_email e (admin_email a) em = true) (admins (db w)) = a :: rest
        /\ sha256_hex pw <> password_hash a) ->
  exists w',
    adminLogin e body w = Return (Response 401 (Message "Email atau password salah.")) w'
    /\ db w' = db w.
Proof.
  intros Hem Hpw Hfault Hcase. unfold adminLogin.
  rewrite (truthy_text _ _ _ Hem), (truthy_text _ _ _ Hpw).
  destruct Hem as [-> _], Hpw as [-> _]. cbn [orb].
  unfold try_catch, bind, select_admin, call, bind, emit, ret. rewrite Hfault. cbn.
  destruct Hcase as [-> | (a & rest & -> & Hne)]; cbn.
  - by eexists.
  - rewrite hashPassword_run. cbn.
    apply String.eqb_neq in Hne. rewrite Hne. by eexists.
Qed.

Lemma same_email_collation (e1 e2 : env) :
  collation e2 = collation e1 -> same_email e2 = same_email e1.
Proof. intros H. unfold same_email. by rewrite H. Qed.



(** A password that is not a string passes the validation when it is
    truthy, and is then refused by the digest: the login answers 401 when
    no row has the email, and 500 when one has. *)
Lemma login_with_non_text_password
    (e : env) (body : gmap string Js.value) (w : world) (em : string) :
  text_field body "email" em ->
  Js.not (body !! "password") = false ->
  sql_text (body !! "password") = None ->
  fault e SelectAdmin = None ->
  exists w',
    adminLogin e body w
    = Return
        (match filter (fun a => same_email e (admin_email a) em = true) (admins (db w)) with
         | [] => Response 401 (Message "Email atau password salah.")
         | _ :: _ => Response 500 (Message "Gagal login.")
         end) w'
    /\ db w' = db w.
Proof.
  intros Hem Hpw Htext Hfault. unfold adminLogin.
  rewrite (truthy_text _ _ _ Hem), Hpw. destruct Hem as [-> _]. cbn [orb].
  unfold try_catch, bind, select_admin, call, bind, emit, ret.
  rewrite Hfault. cbn.
  destruct (filter _ _) as [| a rest]; cbn; [by eexists |].
  rewrite hashPassword_rejects by done. cbn. by eexists.
Qed.

(** C2 (the code departs from it): with the number [123] as password, a
    wrong password for every account, the login answers
    401 "Email atau password salah." for an email that is not registered
    and 500 "Gagal login." for one that is; the two answers tell the
    caller which emails exist. *)
Theorem login_tells_registered_email_on_numeric_password :
  let registration : gmap string Js.value :=
    {[ "email" := Js.JStr "admin@example.com"; "password" := Js.JStr "rahasia" ]} in
  let w := world_after (adminRegister quiet registration fresh) in
  let known : gmap string Js.value :=
    {[ "email" := Js.JStr "admin@example.com"; "password" := Js.JNum 123%float ]} in
  let unknown : gmap string Js.value :=
    {[ "email" := Js.JStr "nobody@example.com"; "password" := Js.JNum 123%float ]} in
  (exists w', adminLogin quiet known w = Return (Response 500 (Message "Gagal login.")) w')
  /\ (exists w', adminLogin quiet unknown w
                 = Return (Response 401 (Message "Email atau password salah.")) w').
Proof.
  intros registration w known unknown.
  split; eexists; vm_compute; reflexivity.
Qed.

(** * Further properties *)

(** ** The digest *)

Lemma round_length (st : list Z) (kw : Z * Z) :
  length st = 8%nat -> length (Sha256.round st kw) = 8%nat.
Proof.
  intros H. do 9 (destruct st as [| ? st]; try discriminate H). reflexivity.
Qed.

Lemma rounds_length (kws : list (Z * Z)) (st : list Z) :
  length st = 8%nat -> length (fold_left Sha256.round kws st) = 8%nat.
Proof.
  revert st. induction kws as [| kw kws IH]; intros st H; cbn; [done |].
  by apply IH, round_length.
Qed.

Lemma compress_length (h block : list Z) :
  length h = 8%nat -> length (Sha256.compress h block) = 8%nat.
Proof.
  intros H. unfold Sha256.compress, Sha256.zip2.
  rewrite length_map, length_combine, rounds_length, H; done.
Qed.

Lemma blocks_length (bs : list (list Z)) (h : list Z) :
  length h = 8%nat -> length (fold_left Sha256.compress bs h) = 8%nat.
Proof.
  revert h. induction bs as [| b bs IH]; intros h H; cbn; [done |].
  by apply IH, compress_length.
Qed.

Lemma be_bytes_are_bytes (n : nat) (x : Z) :
  length (Sha256.be_bytes n x) = n
  /\ Forall (fun b => 0 <= b < 256) (Sha256.be_bytes n x).
Proof.
  unfold Sha256.be_bytes. split.
  - by rewrite length_map, length_rev, length_seq.
  - apply Forall_map, Forall_forall. intros i _. cbn.
    apply Z.mod_pos_bound. lia.
Qed.

Lemma words_to_bytes (h : list Z) :
  length (concat (map (Sha256.be_bytes 4) h)) = (4 * length h)%nat
  /\ Forall (fun b => 0 <= b < 256) (concat (map (Sha256.be_bytes 4) h)).
Proof.
  induction h as [| x h [IHl IHb]]; cbn [map concat]; [by split |].
  destruct (be_bytes_are_bytes 4 x) as [Hl Hb]. split.
  - rewrite length_app, Hl, IHl. cbn [length]. lia.
  - by apply Forall_app.
Qed.

Lemma digest_is_32_bytes (msg : list Z) :
  length (Sha256.digest msg) = 32%nat
  /\ Forall (fun b => 0 <= b < 256) (Sha256.digest msg).
Proof.
  unfold Sha256.digest. cbn zeta.
  destruct (words_to_bytes
              (fold_left Sha256.compress
                 (Sha256.blocks (length (Sha256.words (length msg + 72) (Sha256.pad msg)))
                    (Sha256.words (length msg + 72) (Sha256.pad msg))) Sha256.H0))
    as [Hl Hb].
  split; [| exact Hb].
  rewrite Hl, blocks_length; reflexivity.
Qed.

(** X1: whatever the password, as long as it is a string, [hashPassword]
    returns 64 characters that are all lower-case hexadecimal digits, and
    touches neither the store nor the pool. *)
Theorem password_hash_is_64_hex_digits (password : string) (w : world) :
  exists digest w',
    hashPassword (Some (Js.JStr password)) w = Return digest w'
    /\ String.length digest = 64%nat
    /\ Hex.all_hex digest = true
    /\ db w' = db w /\ in_use w' = in_use w.
Proof.
  exists (sha256_hex password), (traced Hashed w).
  destruct (digest_is_32_bytes (utf8 password)) as [Hl Hb].
  split; [apply hashPassword_run |]. unfold sha256_hex.
  split; [by rewrite of_bytes_length, Hl |].
  split; [by apply of_bytes_hex | by split].
Qed.

(** ** Hexadecimal rendering *)

Lemma hex_value_digit (n : Z) : 0 <= n < 16 -> hex_value (Hex.digit n) = Some n.
Proof.
  intros Hn.
  pose proof (below_forallb
                (fun k => match hex_value (Hex.digit k) with
                          | Some d => d =? k
                          | None => false
                          end) 16 eq_refl n Hn) as H.
  cbn beta in H. destruct (hex_value _) as [d |]; [| done].
  apply Z.eqb_eq in H. by subst d.
Qed.

Lemma hex_decode_of_bytes (bs : list Z) :
  Forall (fun b => 0 <= b < 256) bs -> hex_decode (Hex.of_bytes bs) = Some bs.
Proof.
  induction 1 as [| b bs Hb _ IH]; [done |].
  cbn [Hex.of_bytes Hex.of_byte String.append hex_decode].
  rewrite !hex_value_digit, IH.
  - f_equal. f_equal. Z.to_euclidean_division_equations. lia.
  - apply Z.mod_pos_bound. lia.
  - split; [apply Z.div_pos; lia | apply Z.div_lt_upper_bound; lia].
Qed.

Lemma random_bytes_are_bytes (e : env) (n : nat) :
  Forall (fun b => 0 <= b < 256)
    (map (fun i => Z.of_N (Byte.to_N (entropy e i))) (seq 0 n)).
Proof.
  apply Forall_map, Forall_forall. intros i _. cbn.
  pose proof (Byte.to_N_bounded (entropy e i)). lia.
Qed.

(** X2: the rendering of the key loses nothing: decoding the key that
    [generateApiKey] returns gives back the 32 bytes that were drawn, so two
    calls return the same key only if the random source gave them the same
    32 bytes. *)
Theorem api_key_determines_its_bytes (e1 e2 : env) (w1 w2 w1' w2' : world) (k1 k2 : string) :
  generateApiKey e1 w1 = Return k1 w1' ->
  generateApiKey e2 w2 = Return k2 w2' ->
  hex_decode k1 = Some (map (fun i => Z.of_N (Byte.to_N (entropy e1 i))) (seq 0 32))
  /\ (k1 = k2 -> forall i, (i < 32)%nat -> entropy e1 i = entropy e2 i).
Proof.
  rewrite !generateApiKey_run.
  destruct (fault e1 RandomBytes); [done |]. destruct (fault e2 RandomBytes); [done |].
  intros [= <- _] [= <- _]. unfold issued_key.
  split; [apply hex_decode_of_bytes, random_bytes_are_bytes |].
  intros Heq i Hi.
  assert (Hdec : Some (map (fun i => Z.of_N (Byte.to_N (entropy e1 i))) (seq 0 32))
                 = Some (map (fun i => Z.of_N (Byte.to_N (entropy e2 i))) (seq 0 32))).
  { rewrite <- !hex_decode_of_bytes by apply random_bytes_are_bytes. by rewrite Heq. }
  pose proof (f_equal (fun o : option (list Z) =>
                         match o with Some l => l | None => [] end) Hdec) as Hmap.
  cbv beta iota in Hmap. clear Hdec Heq.
  assert (Hi' : In i (seq 0 32)) by (apply in_seq; lia).
  pose proof (proj1 map_ext_in_iff Hmap i Hi') as Hbyte. cbn in Hbyte.
  apply (f_equal Z.to_N) in Hbyte. rewrite !N2Z.id in Hbyte.
  apply (f_equal Byte.of_N) in Hbyte. rewrite !Byte.of_to_N in Hbyte.
  by injection Hbyte.
Qed.

(** X2 at two draws from a source of zero bytes. *)
Lemma api_key_determines_its_bytes_witness :
  hex_decode (issued_key quiet) = Some (repeat 0 32)
  /\ (issued_key quiet = issued_key quiet ->
      forall i, (i < 32)%nat -> entropy quiet i = entropy quiet i).
Proof.
  assert (Hrun : generateApiKey quiet fresh
                 = Return (issued_key quiet) (traced (Call RandomBytes) fresh))
    by reflexivity.
  exact (api_key_determines_its_bytes quiet quiet fresh fresh _ _ _ _ Hrun Hrun).
Defined.

(** ** Admin registration *)

Ltac unfold_admin :=
  unfold try_catch, bind, insert_admin, select_admin, call, console_error, emit,
    ret, throw, bind.

(** The outcomes of the admin registration, for any body. *)
Lemma adminRegister_answers
    (e : env) (body : gmap string Js.value) (w : world) :
  exists r w',
    adminRegister e body w = Return r w'
    /\ status r ∈ [201; 400; 409; 500]
    /\ (status r = 400 <-> Js.not (body !! "email") || Js.not (body !! "password") = true)
    /\ in_use w' = in_use w.
Proof.
  unfold adminRegister.
  destruct (Js.not (body !! "email") || Js.not (body !! "password")).
  { eexists _, _. split; [reflexivity |]. cbn. repeat split; set_solver. }
  unfold try_catch, bind.
  destruct (sql_text (body !! "password")) as [pw |] eqn:Hp.
  - apply sql_text_inv in Hp. rewrite Hp, hashPassword_run.
    unfold_admin. cbn.
    destruct (fault e InsertAdmin); cbn;
      [destruct (is_dup_entry _) |
       destruct (sql_text (body !! "email")); [destruct (existsb _ _) |]];
      cbn; eexists _, _; (split; [reflexivity |]); cbn;
      (split; [set_solver | split; [split; discriminate | reflexivity]]).
  - rewrite hashPassword_rejects by done. cbn.
    eexists _, _. split; [reflexivity |]. cbn.
    split; [set_solver | split; [split; discriminate | reflexivity]].
Qed.

(** X3: the admin registration always answers, with 201, 400, 409 or 500
    (its promise is never rejected), answers 400 exactly when [email] or
    [password] is falsy, and leaves the pool as it found it. *)
Theorem admin_register_always_answers
    (e : env) (body : gmap string Js.value) (w : world) :
  exists r w',
    adminRegister e body w = Return r w'
    /\ status r ∈ [201; 400; 409; 500]
    /\ (status r = 400 <-> Js.not (body !! "email") || Js.not (body !! "password") = true)
    /\ in_use w' = in_use w.
Proof. exact (adminRegister_answers e body w). Qed.

(** X4: a truthy [password] that is not a string (a number, [true], an
    array, an object) is answered 500 before any statement is sent: the
    only effect is the logged error. *)
Theorem admin_register_non_text_password
    (e : env) (body : gmap string Js.value) (w : world) :
  Js.not (body !! "email") = false ->
  Js.not (body !! "password") = false ->
  sql_text (body !! "password") = None ->
  adminRegister e body w
  = Return (Response 500 (Message "Gagal mendaftarkan admin."))
      (traced (Logged "Error registrasi admin:") w).
Proof.
  intros Hem Hpw Htext. unfold adminRegister. rewrite Hem, Hpw. cbn [orb].
  unfold try_catch, bind. by rewrite hashPassword_rejects.
Qed.

(** X4 at the password [true]. *)
Lemma admin_register_non_text_password_witness :
  let body : gmap string Js.value :=
    {[ "email" := Js.JStr "admin@example.com"; "password" := Js.JBool true ]} in
  adminRegister quiet body fresh
  = Return (Response 500 (Message "Gagal mendaftarkan admin."))
      (traced (Logged "Error registrasi admin:") fresh).
Proof.
  intros body.
  apply (admin_register_non_text_password quiet body fresh);
    vm_compute; reflexivity.
Defined.

Lemma existsb_app_last {A} (P : A -> bool) (l : list A) (x : A) :
  P x = true -> existsb P (l ++ [x])%list = true.
Proof. intros H. rewrite existsb_app. cbn. rewrite H. by rewrite orb_true_r. Qed.

(** X5: once an admin registration has been accepted for an email, a
    second registration with that email (and any string password) is
    answered 409 and adds no row. *)
Theorem admin_register_twice
    (e1 e2 : env) (body body' : gmap string Js.value) (w w1 : world) (em pw' : string)
    (r : response) :
  text_field body "email" em ->
  adminRegister e1 body w = Return r w1 ->
  status r = 201 ->
  text_field body' "email" em ->
  text_field body' "password" pw' ->
  collation e2 = collation e1 ->
  fault e2 InsertAdmin = None ->
  exists w2,
    adminRegister e2 body' w1
    = Return (Response 409 (Message "Email admin sudah terdaftar.")) w2
    /\ db w2 = db w1.
Proof.
  intros Hem Hrun H201 Hem' Hpw' Hcoll Hfault.
  destruct (adminRegister_accepted e1 body w w1 em r Hem Hrun H201)
    as (pw & _ & _ & Hadmins).
  unfold adminRegister.
  rewrite (truthy_text _ _ _ Hem'), (truthy_text _ _ _ Hpw').
  destruct Hem' as [-> _], Hpw' as [-> _]. cbn [orb].
  unfold try_catch, bind. rewrite hashPassword_run.
  unfold_admin. cbn. rewrite Hfault. cbn.
  rewrite (same_email_collation e1 e2 Hcoll), Hadmins.
  rewrite (existsb_app_last (fun a => same_email e1 (admin_email a) em))
    by apply same_email_refl.
  cbn. by eexists.
Qed.

(** X5 at two registrations of [admin@example.com]. *)
Lemma admin_register_twice_witness :
  let body : gmap string Js.value :=
    {[ "email" := Js.JStr "admin@example.com"; "password" := Js.JStr "rahasia" ]} in
  let body' : gmap string Js.value :=
    {[ "email" := Js.JStr "admin@example.com"; "password" := Js.JStr "lain" ]} in
  let w1 := world_after (adminRegister quiet body fresh) in
  exists w2,
    adminRegister quiet body' w1
    = Return (Response 409 (Message "Email admin sudah terdaftar.")) w2
    /\ db w2 = db w1.
Proof.
  intros body body' w1.
  assert (Hem : text_field body "email" "admin@example.com")
    by (split; [vm_compute; reflexivity | discriminate]).
  assert (Hrun : adminRegister quiet body fresh
                 = Return (Response 201 (Message "Admin berhasil didaftarkan.")) w1)
    by (vm_compute; reflexivity).
  assert (Hem' : text_field body' "email" "admin@example.com")
    by (split; [vm_compute; reflexivity | discriminate]).
  assert (Hpw' : text_field body' "password" "lain")
    by (split; [vm_compute; reflexivity | discriminate]).
  exact (admin_register_twice quiet quiet body body' fresh w1 _ _ _
           Hem Hrun eq_refl Hem' Hpw' eq_refl eq_refl).
Defined.

(** ** Admin login *)

(** The outcomes of the admin login, for any body. *)
Lemma adminLogin_reads
    (e : env) (body : gmap string Js.value) (w : world) :
  exists r w',
    adminLogin e body w = Return r w'
    /\ status r ∈ [200; 400; 401; 500]
    /\ db w' = db w /\ autoinc w' = autoinc w /\ in_use w' = in_use w
    /\ connection w' = connection w.
Proof.
  unfold adminLogin.
  destruct (Js.not (body !! "email") || Js.not (body !! "password")).
  { eexists _, _. split; [reflexivity |]. cbn. repeat split; set_solver. }
  unfold_admin. cbn.
  destruct (fault e SelectAdmin); cbn.
  { eexists _, _. split; [reflexivity |]. cbn. repeat split; set_solver. }
  destruct (sql_text (body !! "email"));
    match goal with
    | |- context [match ?rows with [] => _ | _ :: _ => _ end] =>
        destruct rows as [| h rows']
    end; cbn;
    try (eexists _, _; (split; [reflexivity |]); cbn; repeat split; set_solver);
    (destruct (sql_text (body !! "password")) as [pw |] eqn:Hp;
     [ apply sql_text_inv in Hp; rewrite Hp, hashPassword_run; cbn;
       destruct (String.eqb (sha256_hex pw) h)
     | rewrite hashPassword_rejects by done; cbn ]);
    eexists _, _; (split; [reflexivity |]); cbn; repeat split; set_solver.
Qed.

(** X6: the admin login only reads: whatever the body and whatever
    fails, it answers (200, 400, 401 or 500, never a rejected promise) and
    leaves the tables, the counters and the pool untouched. *)
Theorem admin_login_only_reads
    (e : env) (body : gmap string Js.value) (w : world) :
  exists r w',
    adminLogin e body w = Return r w'
    /\ status r ∈ [200; 400; 401; 500]
    /\ db w' = db w /\ autoinc w' = autoinc w /\ in_use w' = in_use w
    /\ connection w' = connection w.
Proof. exact (adminLogin_reads e body w). Qed.

(** X7: the token is given out only on a match of digests: when the login
    of a string email is answered 200, the password is a string, a row has
    that email, and the digest of the password is the hash stored in the
    first such row; the answer then carries the configured token. *)
Theorem admin_login_needs_matching_digest
    (e : env) (body : gmap string Js.value) (w w' : world) (em : string) (r : response) :
  text_field body "email" em ->
  adminLogin e body w = Return r w' ->
  status r = 200 ->
  exists pw a rest,
    text_field body "password" pw
    /\ filter (fun a => same_email e (admin_email a) em = true) (admins (db w)) = a :: rest
    /\ password_hash a = sha256_hex pw
    /\ json r = LoggedIn "Login berhasil." (ADMIN_TOKEN_DUMMY e).
Proof.
  intros [Hem Hne] Hrun H200. revert Hrun. unfold adminLogin. rewrite Hem.
  destruct (Js.not (Some (Js.JStr em)) || Js.not (body !! "password")) eqn:Hv.
  { intros [= <- <-]. discriminate H200. }
  apply orb_false_iff in Hv as [_ Hv].
  unfold_admin. cbn.
  destruct (fault e SelectAdmin); cbn; [intros [= <- <-]; discriminate H200 |].
  destruct (filter _ _) as [| a rest] eqn:Hrows; cbn;
    [intros [= <- <-]; discriminate H200 |].
  destruct (sql_text (body !! "password")) as [pw |] eqn:Hp.
  - apply sql_text_inv in Hp. rewrite Hp in *. rewrite hashPassword_run. cbn.
    destruct (String.eqb (sha256_hex pw) (password_hash a)) eqn:Heq;
      [| intros [= <- <-]; discriminate H200].
    intros [= <- <-]. apply String.eqb_eq in Heq.
    exists pw, a, rest. split; [split; [exact Hp | by apply not_text] |].
    by repeat split.
  - rewrite hashPassword_rejects by done. cbn. intros [= <- <-]. discriminate H200.
Qed.

(** X7 at the login that follows a registration. *)
Lemma admin_login_needs_matching_digest_witness :
  let body : gmap string Js.value :=
    {[ "email" := Js.JStr "admin@example.com"; "password" := Js.JStr "rahasia" ]} in
  let w1 := world_after (adminRegister quiet body fresh) in
  exists pw a rest,
    text_field body "password" pw
    /\ filter (fun a => same_email quiet (admin_email a) "admin@example.com" = true)
         (admins (db w1)) = a :: rest
    /\ password_hash a = sha256_hex pw
    /\ json (Response 200 (LoggedIn "Login berhasil." None))
       = LoggedIn "Login berhasil." (ADMIN_TOKEN_DUMMY quiet).
Proof.
  intros body w1.
  assert (Hem : text_field body "email" "admin@example.com")
    by (split; [vm_compute; reflexivity | discriminate]).
  assert (Hrun : adminLogin quiet body w1
                 = Return (Response 200 (LoggedIn "Login berhasil." None))
                     (world_after (adminLogin quiet body w1)))
    by (vm_compute; reflexivity).
  exact (admin_login_needs_matching_digest quiet body w1 _ _ _ Hem Hrun eq_refl).
Defined.

(** ** The middleware and the dashboard *)

Lemma until_space_has_no_space (s : string) : Str.has Str.space (until_space s) = false.
Proof.
  induction s as [| c s IH]; cbn; [done |].
  destruct (Ascii.eqb c Str.space) eqn:Hc; cbn; [done |]. by rewrite Hc, IH.
Qed.

(** X8: a secret that cannot be presented opens nothing: when
    [API_DUMMY_TOKEN] is not set, or holds a space, the middleware answers
    401 or 403 to every header and never runs the handler. *)
Theorem unpresentable_secret_admits_nobody
    (e : env) (authorization : option string) (next : M response) (w : world) :
  ADMIN_TOKEN_DUMMY e = None
  \/ (exists secret, ADMIN_TOKEN_DUMMY e = Some secret /\ Str.has Str.space secret = true) ->
  adminAuthMiddleware e authorization next w
  = Return (Response 401 (Message "Autentikasi diperlukan.")) w
  \/ adminAuthMiddleware e authorization next w
     = Return (Response 403 (Message "Token admin tidak valid.")) w.
Proof.
  intros Hsecret.
  destruct authorization as [h |]; [| by left].
  destruct (Str.startsWith "Bearer " h) eqn:Hs.
  - destruct (startsWith_inv _ _ Hs) as [rest ->]. right.
    rewrite middleware_on_bearer. rewrite bool_decide_eq_false_2; [done |].
    intros Heq. destruct Hsecret as [Hnone | (secret & Hsome & Hspace)].
    + by rewrite Hnone in Heq.
    + rewrite Hsome in Heq. injection Heq as <-.
      by rewrite until_space_has_no_space in Hspace.
  - left. apply middleware_without_bearer. intros [rest ->].
    by rewrite startsWith_app in Hs.
Qed.

(** X8 in an environment without [API_DUMMY_TOKEN], at the header
    [Bearer undefined]. *)
Lemma unpresentable_secret_admits_nobody_witness :
  adminAuthMiddleware quiet (Some "Bearer undefined") (dashboard quiet) fresh
  = Return (Response 401 (Message "Autentikasi diperlukan.")) fresh
  \/ adminAuthMiddleware quiet (Some "Bearer undefined") (dashboard quiet) fresh
     = Return (Response 403 (Message "Token admin tidak valid.")) fresh.
Proof.
  exact (unpresentable_secret_admits_nobody quiet (Some "Bearer undefined")
           (dashboard quiet) fresh (or_introl eq_refl)).
Defined.

Lemma insert_desc_sorted {A} (at_ : A -> Z) (x : A) (l : list A) :
  newest_first at_ l -> newest_first at_ (insert_desc at_ x l).
Proof.
  unfold newest_first. induction 1 as [| y l Hs IH Hhd]; cbn.
  - by repeat constructor.
  - destruct (Z.ltb_spec (at_ y) (at_ x)).
    + constructor; [by constructor |]. constructor. lia.
    + constructor; [exact IH |].
      destruct l as [| z l]; cbn.
      * constructor. lia.
      * destruct (Z.ltb_spec (at_ z) (at_ x)); constructor; [lia |].
        by inversion Hhd.
Qed.

Lemma order_desc_sorted {A} (at_ : A -> Z) (l : list A) :
  newest_first at_ (order_desc at_ l).
Proof.
  induction l as [| x l IH]; cbn; [constructor | by apply insert_desc_sorted].
Qed.

(** The outcomes of the dashboard handler. *)
Lemma dashboard_reads (e : env) (w : world) :
  exists r w',
    dashboard e w = Return r w'
    /\ db w' = db w /\ autoinc w' = autoinc w /\ in_use w' = in_use w
    /\ (status r = 200 \/ status r = 500)
    /\ (status r = 200 ->
        exists us ks,
          json r = Lists (map user_row_of us) (map key_row_of ks)
          /\ us ≡ₚ users (db w) /\ newest_first user_created_at us
          /\ ks ≡ₚ api_keys (db w) /\ newest_first key_created_at ks).
Proof.
  unfold dashboard, try_catch, bind, select_users, select_keys, call, bind, emit,
    console_error, emit, ret, throw.
  destruct (fault e SelectUsers); cbn.
  { eexists _, _. split; [reflexivity |]. cbn. repeat split; [by right | done]. }
  destruct (fault e SelectKeys); cbn.
  { eexists _, _. split; [reflexivity |]. cbn. repeat split; [by right | done]. }
  eexists _, _. split; [reflexivity |]. cbn. repeat split; [by left |].
  intros _. exists (order_desc user_created_at (users (db w))),
    (order_desc key_created_at (api_keys (db w))).
  repeat split; try apply order_desc_perm; apply order_desc_sorted.
Qed.

(** X9: the dashboard only reads, and what it lists is every row, newest
    first: a 200 carries the projections of a rearrangement of the users
    that is sorted by decreasing [created_at], and the same for the keys;
    whatever happens, tables, counters and pool are left as they were and
    the promise is not rejected. *)
Theorem dashboard_lists_newest_first (e : env) (w : world) :
  exists r w',
    dashboard e w = Return r w'
    /\ db w' = db w /\ autoinc w' = autoinc w /\ in_use w' = in_use w
    /\ (status r = 200 \/ status r = 500)
    /\ (status r = 200 ->
        exists us ks,
          json r = Lists (map user_row_of us) (map key_row_of ks)
          /\ us ≡ₚ users (db w) /\ newest_first user_created_at us
          /\ ks ≡ₚ api_keys (db w) /\ newest_first key_created_at ks).
Proof. exact (dashboard_reads e w). Qed.

(** ** Registration of a user: the protocol *)

Lemma drop_trace (l evs : list event) : drop (length l) (l ++ evs)%list = evs.
Proof. induction l as [| x l IH]; [done | exact IH]. Qed.

Lemma userRegister_protocol (e : env) (body : gmap string Js.value) (w : world) :
  match userRegister e body w with
  | Return resp w' =>
      status resp ∈ [201; 400; 409; 500]
      /\ (status resp = 400 <-> ~ passes_validation body)
      /\ (status resp = 201 ->
          added w (userRegister e body w)
          = [Call GetConnection; Call BeginTransaction; Call InsertUser;
             Call RandomBytes; Call InsertApiKey; Call Commit; Released])
      /\ (passes_validation body -> fault e GetConnection = None ->
          status resp <> 201 ->
          Call Rollback ∈ added w (userRegister e body w)
          /\ fault e Rollback = None)
  | Throw error w' =>
      fault e Rollback = Some error
      /\ passes_validation body
      /\ fault e GetConnection = None
      /\ Call Rollback ∈ added w (userRegister e body w)
  end.
Proof.
  unfold added, passes_validation, userRegister.
  generalize (body !! "first_name") (body !! "last_name") (body !! "email").
  intros first last email.
  destruct (Js.not first || Js.not last || Js.not email).
  { cbn. rewrite drop_all.
    split; [set_solver |]. split; [split; [intros _ H; discriminate H | done] |].
    split; [intros H; discriminate H | intros H; discriminate H]. }
  unfold_handler.
  destruct (getExpirationDate_run e 30) as [[expiresAt Hexp] | Hexp];
    cbn; repeat run_step.
  all: rewrite <- ?app_assoc, ?drop_trace; cbn.
  all: repeat split; try done; try set_solver.
  all: try (intros H; discriminate H).
  all: try (intros H; by destruct H).
  all: try (intros _ H; discriminate H).
  all: try (intros _ _ H; by destruct H).
Qed.

(** X10: the registration of a user answers 201, 400, 409 or 500, and 400
    exactly when one of the three fields is falsy; its promise is rejected
    only when the rollback itself fails, with the error of the rollback.
    When the rollback cannot fail, it always answers. *)
Theorem user_register_answers_unless_rollback_fails
    (e : env) (body : gmap string Js.value) (w : world) :
  match userRegister e body w with
  | Return resp _ =>
      status resp ∈ [201; 400; 409; 500]
      /\ (status resp = 400 <-> ~ passes_validation body)
  | Throw error _ => fault e Rollback = Some error
  end
  /\ (fault e Rollback = None ->
      exists resp w', userRegister e body w = Return resp w').
Proof.
  pose proof (userRegister_protocol e body w) as H.
  destruct (userRegister e body w) as [resp w' | error w'].
  - destruct H as (Hs & H400 & _). split; [by split | by eexists _, _].
  - destruct H as (Hr & _). split; [exact Hr | intros Hnone; congruence].
Qed.

(** X11: a 201 is answered after exactly these effects, in this order:
    a connection is checked out, the transaction begun, the user inserted,
    the random bytes drawn, the key inserted, the transaction committed,
    the connection released; in particular no rollback is attempted. *)
Theorem user_register_commit_protocol
    (e : env) (body : gmap string Js.value) (w w' : world) (resp : response) :
  userRegister e body w = Return resp w' ->
  status resp = 201 ->
  added w (Return resp w')
  = [Call GetConnection; Call BeginTransaction; Call InsertUser;
     Call RandomBytes; Call InsertApiKey; Call Commit; Released].
Proof.
  intros Hrun H201. pose proof (userRegister_protocol e body w) as H.
  rewrite Hrun in H. destruct H as (_ & _ & H & _). by apply H.
Qed.

Lemma ada_body_fields :
  let body : gmap string Js.value :=
    {[ "first_name" := Js.JStr "Ada"; "last_name" := Js.JStr "Lovelace";
       "email" := Js.JStr "ada@example.com" ]} in
  text_field body "first_name" "Ada"
  /\ text_field body "last_name" "Lovelace"
  /\ text_field body "email" "ada@example.com".
Proof.
  intros body. repeat split; try discriminate; vm_compute; reflexivity.
Qed.

(** X11 at the registration of Ada Lovelace. *)
Lemma user_register_commit_protocol_witness :
  let body : gmap string Js.value :=
    {[ "first_name" := Js.JStr "Ada"; "last_name" := Js.JStr "Lovelace";
       "email" := Js.JStr "ada@example.com" ]} in
  exists resp w',
    userRegister quiet body fresh = Return resp w'
    /\ added fresh (Return resp w')
       = [Call GetConnection; Call BeginTransaction; Call InsertUser;
          Call RandomBytes; Call InsertApiKey; Call Commit; Released].
Proof.
  intros body.
  assert (Hrun : userRegister quiet body fresh
                 = Return (Response 201
                     (Issued "Registrasi berhasil. API Key dibuat."
                        (issued_key quiet) "1970-01-31 00:00:00"))
                     (world_after (userRegister quiet body fresh)))
    by (vm_compute; reflexivity).
  eexists _, _. split; [exact Hrun |].
  exact (user_register_commit_protocol quiet body fresh _ _ Hrun eq_refl).
Defined.

(** X12: once a connection has been checked out, every outcome other than
    a 201 (a 409, a 500, a rejected promise) comes after an attempt to roll
    the transaction back. *)
Theorem user_register_failure_rolls_back
    (e : env) (body : gmap string Js.value) (w : world) :
  passes_validation body ->
  fault e GetConnection = None ->
  status_of (userRegister e body w) <> Some 201 ->
  Call Rollback ∈ added w (userRegister e body w).
Proof.
  intros Hv Hc Hnot. pose proof (userRegister_protocol e body w) as H.
  destruct (userRegister e body w) as [resp w' | error w'].
  - destruct H as (_ & _ & _ & H). apply H; [done | done |].
    intros H201. apply Hnot. cbn. by rewrite H201.
  - by destruct H as (_ & _ & _ & H).
Qed.

(** X12 at a registration whose commit is forced to fail. *)
Lemma user_register_failure_rolls_back_witness :
  let body : gmap string Js.value :=
    {[ "first_name" := Js.JStr "Ada"; "last_name" := Js.JStr "Lovelace";
       "email" := Js.JStr "ada@example.com" ]} in
  let e := with_fault (fun step => if decide (step = Commit)
                                   then Some (Js.Error None) else None) quiet in
  Call Rollback ∈ added fresh (userRegister e body fresh).
Proof.
  intros body e.
  apply (user_register_failure_rolls_back e body fresh).
  - vm_compute. reflexivity.
  - reflexivity.
  - vm_compute. discriminate.
Defined.

(** X13: an email that a user row already has (under the collation of the
    column) is answered 409 "Email pengguna sudah terdaftar."; the tables
    and the pool are left as they were. *)
Theorem user_register_duplicate_email
    (e : env) (body : gmap string Js.value) (w : world) (fn ln em : string) :
  text_field body "first_name" fn ->
  text_field body "last_name" ln ->
  text_field body "email" em ->
  fault e GetConnection = None ->
  fault e BeginTransaction = None ->
  fault e InsertUser = None ->
  fault e Rollback = None ->
  existsb (fun u => same_email e (user_email u) em) (users (db w)) = true ->
  exists w',
    userRegister e body w
    = Return (Response 409 (Message "Email pengguna sudah terdaftar.")) w'
    /\ db w' = db w /\ in_use w' = in_use w.
Proof.
  intros Hfn Hln Hem Hc Hb Hi Hr Hdup. unfold userRegister.
  rewrite (truthy_text _ _ _ Hfn), (truthy_text _ _ _ Hln), (truthy_text _ _ _ Hem).
  destruct Hfn as [-> _], Hln as [-> _], Hem as [-> _].
  cbn [orb]. unfold_handler. cbn.
  rewrite Hc. cbn. rewrite Hb. cbn. rewrite Hi. cbn. rewrite Hdup. cbn.
  rewrite Hr. cbn. by eexists.
Qed.

(** X13 at a second registration of Ada Lovelace's email. *)
Lemma user_register_duplicate_email_witness :
  let body : gmap string Js.value :=
    {[ "first_name" := Js.JStr "Ada"; "last_name" := Js.JStr "Lovelace";
       "email" := Js.JStr "ada@example.com" ]} in
  let w1 := world_after (userRegister quiet body fresh) in
  exists w',
    userRegister quiet body w1
    = Return (Response 409 (Message "Email pengguna sudah terdaftar.")) w'
    /\ db w' = db w1 /\ in_use w' = in_use w1.
Proof.
  intros body w1.
  destruct ada_body_fields as (Hfn & Hln & Hem).
  apply (user_register_duplicate_email quiet body w1 _ _ _ Hfn Hln Hem);
    reflexivity.
Defined.

(** X14: the handler tells a duplicate by the error code alone, so a key
    that collides with a stored key is answered with the 409 of the email,
    "Email pengguna sudah terdaftar.", although the email is new.  The user
    row, inserted in the transaction just before, is rolled back: the
    rollback is called after the failed insert of the key and before the
    release, the connection is left with no open transaction, and the
    tables are as they were. *)
Theorem user_register_key_collision
    (e : env) (body : gmap string Js.value) (w : world) (fn ln em : string) :
  text_field body "first_name" fn ->
  text_field body "last_name" ln ->
  text_field body "email" em ->
  undisturbed e ->
  existsb (fun u => same_email e (user_email u) em) (users (db w)) = false ->
  existsb (fun k => String.eqb (key_value k) (issued_key e)) (api_keys (db w)) = true ->
  Z.abs (UTC e (LocalTime e (clock e) + 30 * Date.msPerDay)) <= 8640000000000000 ->
  exists w',
    userRegister e body w
    = Return (Response 409 (Message "Email pengguna sudah terdaftar.")) w'
    /\ db w' = db w /\ in_use w' = in_use w
    /\ connection w' = Some None
    /\ added w (userRegister e body w)
       = [Call GetConnection; Call BeginTransaction; Call InsertUser;
          Call RandomBytes; Call InsertApiKey; Call Rollback; Released].
Proof.
  intros Hfn Hln Hem Hquiet Hfresh Hkey Hdate. unfold added, userRegister.
  rewrite (truthy_text _ _ _ Hfn), (truthy_text _ _ _ Hln), (truthy_text _ _ _ Hem).
  destruct Hfn as [-> _], Hln as [-> _], Hem as [-> _].
  cbn [orb]. unfold_handler.
  destruct (getExpirationDate_run e 30) as [[expiresAt Hexp] | Hexp].
  - cbn. rewrite !Hquiet. cbn. rewrite Hfresh. cbn.
    rewrite generateApiKey_run, Hquiet. cbn. rewrite Hexp. cbn.
    rewrite ?Hquiet. cbn. rewrite Hkey. cbn. rewrite ?Hquiet. cbn.
    eexists. split; [reflexivity |]. cbn.
    rewrite <- !app_assoc, drop_trace. by repeat split.
  - exfalso. specialize (Hexp w). revert Hexp.
    unfold getExpirationDate. rewrite setDate_shift. unfold Date.TimeClip.
    destruct (Z.leb_spec (Z.abs (UTC e (LocalTime e (clock e) + 30 * Date.msPerDay)))
                8640000000000000); [done | lia].
Qed.

(** X14 at a second registration, of another email, with a random source
    that repeats itself. *)
Lemma user_register_key_collision_witness :
  let ada : gmap string Js.value :=
    {[ "first_name" := Js.JStr "Ada"; "last_name" := Js.JStr "Lovelace";
       "email" := Js.JStr "ada@example.com" ]} in
  let grace : gmap string Js.value :=
    {[ "first_name" := Js.JStr "Grace"; "last_name" := Js.JStr "Hopper";
       "email" := Js.JStr "grace@example.com" ]} in
  let w1 := world_after (userRegister quiet ada fresh) in
  exists w',
    userRegister quiet grace w1
    = Return (Response 409 (Message "Email pengguna sudah terdaftar.")) w'
    /\ db w' = db w1 /\ in_use w' = in_use w1
    /\ connection w' = Some None
    /\ added w1 (userRegister quiet grace w1)
       = [Call GetConnection; Call BeginTransaction; Call InsertUser;
          Call RandomBytes; Call InsertApiKey; Call Rollback; Released].
Proof.
  intros ada grace w1.
  apply (user_register_key_collision quiet grace w1
           "Grace" "Hopper" "grace@example.com").
  - split; [vm_compute; reflexivity | discriminate].
  - split; [vm_compute; reflexivity | discriminate].
  - split; [vm_compute; reflexivity | discriminate].
  - intros step. reflexivity.
  - vm_compute. reflexivity.
  - vm_compute. reflexivity.
  - vm_compute. discriminate.
Defined.

(** X15: for any number of days, negative ones included, the result is the
    DATETIME literal of the local time that many calendar days away,
    written in UTC, as long as it falls in the years 0 to 9999; the day of
    the month carries into the months and years as needed.  A time beyond
    the range of [Date] makes the function throw. *)
Theorem expiration_for_any_days (e : env) (days : Z) (w : world) :
  let expiry := UTC e (LocalTime e (clock e) + days * Date.msPerDay) in
  (Date.TimeFromYear 0 <= expiry < Date.TimeFromYear 10000 ->
   getExpirationDate e days w = Return (mysql_datetime expiry) w
   /\ datetime_seconds (mysql_datetime expiry) = Some (expiry / 1000))
  /\ (8640000000000000 < Z.abs expiry ->
      getExpirationDate e days w = Throw RangeError w).
Proof.
  intros expiry. unfold getExpirationDate. rewrite setDate_shift. fold expiry.
  unfold Date.TimeClip. split.
  - intros Hrange.
    assert (Hyear : 0 <= Date.YearFromTime expiry <= 9999).
    { pose proof (DateFacts.YearFromTime_bounds expiry 0 10000 Hrange). lia. }
    change (Date.TimeFromYear 0) with (-62167219200000) in Hrange.
    change (Date.TimeFromYear 10000) with 253402300800000 in Hrange.
    destruct (Z.leb_spec (Z.abs expiry) 8640000000000000); [| lia].
    split; [by rewrite iso_to_datetime | by apply datetime_seconds_of_datetime].
  - intros Hbig.
    destruct (Z.leb_spec (Z.abs expiry) 8640000000000000); [lia | done].
Qed.

(** X15 one day before noon UTC on the first of March 2024, a leap year. *)
Lemma expiration_for_any_days_witness :
  let e := with_clock 1709294400123 quiet in
  getExpirationDate e (-1) fresh = Return "2024-02-29 12:00:00" fresh.
Proof.
  intros e.
  pose proof (expiration_for_any_days e (-1) fresh) as H.
  destruct H as [H _].
  assert (Hrange : Date.TimeFromYear 0
                   <= UTC e (LocalTime e (clock e) + -1 * Date.msPerDay)
                   < Date.TimeFromYear 10000)
    by (vm_compute; split; [discriminate | reflexivity]).
  destruct (H Hrange) as [Hrun _].
  rewrite Hrun. vm_compute. reflexivity.
Defined.

(** ** Requests in sequence *)

Lemma adminDashboard_reads (e : env) (authorization : option string) (w : world) :
  exists r w',
    adminDashboard e authorization w = Return r w'
    /\ db w' = db w /\ autoinc w' = autoinc w /\ in_use w' = in_use w.
Proof.
  unfold adminDashboard.
  destruct authorization as [h |]; [| by eexists _, _].
  destruct (Str.startsWith "Bearer " h) eqn:Hs.
  - destruct (startsWith_inv _ _ Hs) as [rest ->]. rewrite middleware_on_bearer.
    destruct (bool_decide _); [| by eexists _, _].
    destruct (dashboard_reads e w) as (r & w' & Hrun & Hdb & Hc & Hin & _).
    by exists r, w'.
  - rewrite middleware_without_bearer; [by eexists _, _ |].
    intros [rest ->]. by rewrite startsWith_app in Hs.
Qed.

Lemma serve_pool (e : env) (req : request) (w : world) :
  in_use (world_after (serve e req w)) = in_use w.
Proof.
  destruct req as [body | body | authorization | body]; cbn [serve].
  - destruct (adminRegister_answers e body w) as (r & w' & -> & _ & _ & H). exact H.
  - destruct (adminLogin_reads e body w) as (r & w' & -> & _ & _ & _ & H & _). exact H.
  - destruct (adminDashboard_reads e authorization w) as (r & w' & -> & _ & _ & H).
    exact H.
  - pose proof (userRegister_always e body w) as H.
    destruct (userRegister e body w); by destruct H.
Qed.

(** X16: however many requests are served, whatever they carry and
    whatever fails, the pool ends with as many connections checked out as
    it started with. *)
Theorem pool_never_leaks (requests : list (env * request)) (w : world) :
  in_use (serve_all requests w) = in_use w.
Proof.
  revert w. induction requests as [| [e req] rest IH]; intros w; cbn; [done |].
  by rewrite IH, serve_pool.
Qed.

Lemma text_lookup (body : gmap string Js.value) (name : string) :
  text_only body ->
  body !! name = None \/ exists s, body !! name = Some (Js.JStr s).
Proof.
  intros Ht. destruct (body !! name) as [v |] eqn:Hv; [right | by left].
  destruct (Ht name v Hv) as [s ->]. by exists s.
Qed.

(** What an admin registration with a body of strings does to the tables. *)
Lemma adminRegister_effect (e : env) (body : gmap string Js.value) (w : world) :
  text_only body ->
  users (db (world_after (adminRegister e body w))) = users (db w)
  /\ api_keys (db (world_after (adminRegister e body w))) = api_keys (db w)
  /\ next_user (autoinc (world_after (adminRegister e body w))) = next_user (autoinc w)
  /\ (admins (db (world_after (adminRegister e body w))) = admins (db w)
      \/ exists em h,
           admins (db (world_after (adminRegister e body w)))
           = (admins (db w) ++ [Admin (next_admin (autoinc w)) em h])%list
           /\ existsb (fun a => same_email e (admin_email a) em) (admins (db w)) = false).
Proof.
  intros Ht. unfold adminRegister.
  destruct (text_lookup body "email" Ht) as [-> | [em ->]];
    [cbn; repeat split; by left |].
  destruct (text_lookup body "password" Ht) as [-> | [pw ->]];
    [rewrite orb_true_r; cbn; repeat split; by left |].
  destruct em as [| c em]; [cbn; repeat split; by left |].
  destruct pw as [| d pw]; [cbn; repeat split; by left |].
  cbn [Js.not Js.truthy String.eqb negb orb].
  unfold try_catch, bind. rewrite hashPassword_run. unfold_admin. cbn.
  destruct (fault e InsertAdmin); cbn.
  - destruct (is_dup_entry _); cbn; repeat split; by left.
  - destruct (existsb _ _) eqn:Hdup; cbn; repeat split; [by left |].
    right. by eexists _, _.
Qed.

(** What a user registration with a body of strings does to the tables. *)
Lemma userRegister_effect (e : env) (body : gmap string Js.value) (w : world) :
  text_only body ->
  admins (db (world_after (userRegister e body w))) = admins (db w)
  /\ next_user (autoinc w) <= next_user (autoinc (world_after (userRegister e body w)))
  /\ ((users (db (world_after (userRegister e body w))) = users (db w)
       /\ api_keys (db (world_after (userRegister e body w))) = api_keys (db w))
      \/ exists fn ln em expiresAt,
           db (world_after (userRegister e body w))
           = registered e w fn ln em (issued_key e) expiresAt
           /\ next_user (autoinc (world_after (userRegister e body w)))
              = next_user (autoinc w) + 1
           /\ existsb (fun u => same_email e (user_email u) em) (users (db w)) = false
           /\ existsb (fun k => String.eqb (key_value k) (issued_key e))
                (api_keys (db w)) = false).
Proof.
  intros Ht. unfold userRegister.
  destruct (text_lookup body "first_name" Ht) as [-> | [fn ->]];
    [cbn; split; [done | split; [lia | by left]] |].
  destruct (text_lookup body "last_name" Ht) as [-> | [ln ->]];
    [rewrite orb_true_r; cbn; split; [done | split; [lia | by left]] |].
  destruct (text_lookup body "email" Ht) as [-> | [em ->]];
    [rewrite orb_true_r; cbn; split; [done | split; [lia | by left]] |].
  destruct fn as [| c1 fn]; [cbn; split; [done | split; [lia | by left]] |].
  destruct ln as [| c2 ln]; [cbn; split; [done | split; [lia | by left]] |].
  destruct em as [| c3 em]; [cbn; split; [done | split; [lia | by left]] |].
  cbn [Js.not Js.truthy String.eqb negb orb].
  unfold_handler.
  destruct (getExpirationDate_run e 30) as [[expiresAt Hexp] | Hexp];
    cbn; repeat run_step.
  all: split; [reflexivity | split; [lia |]].
  all: try (left; split; reflexivity).
  all: right; eexists _, _, _, _; repeat split; done.
Qed.








Lemma grows_refl (s : store) : grows s s.
Proof. repeat split; exists []; by rewrite app_nil_r. Qed.

Lemma grows_trans (s1 s2 s3 : store) : grows s1 s2 -> grows s2 s3 -> grows s1 s3.
Proof.
  intros ([a Ha] & [u Hu] & [k Hk]) ([a' Ha'] & [u' Hu'] & [k' Hk']).
  repeat split; eexists; rewrite ?Ha', ?Hu', ?Hk', ?Ha, ?Hu, ?Hk, <- app_assoc; done.
Qed.

Lemma grows_fields (s s' : store) :
  (exists more, admins s' = (admins s ++ more)%list) ->
  (exists more, users s' = (users s ++ more)%list) ->
  (exists more, api_keys s' = (api_keys s ++ more)%list) ->
  grows s s'.
Proof. by repeat split. Qed.




Lemma serve_grows (e : env) (req : request) (w : world) :
  text_request req -> grows (db w) (db (world_after (serve e req w))).
Proof.
  intros Ht. destruct req as [body | body | authorization | body]; cbn [serve].
  - destruct (adminRegister_effect e body w Ht) as (Hu & Hk & _ & [Ha | (em & h & Ha & _)]);
      apply grows_fields; rewrite ?Ha, ?Hu, ?Hk;
      first [by eexists | exists []; by rewrite app_nil_r].
  - destruct (adminLogin_reads e body w) as (r & w' & -> & _ & Hdb & _).
    cbn. rewrite Hdb. apply grows_refl.
  - destruct (adminDashboard_reads e authorization w) as (r & w' & -> & Hdb & _).
    cbn. rewrite Hdb. apply grows_refl.
  - destruct (userRegister_effect e body w Ht)
      as (Ha & _ & [[Hu Hk] | (fn & ln & em & ex & Hdb & _)]).
    + apply grows_fields; rewrite ?Ha, ?Hu, ?Hk; exists []; by rewrite app_nil_r.
    + rewrite Hdb. unfold registered. apply grows_fields; cbn;
        [exists []; by rewrite app_nil_r | by eexists ..].
Qed.

Lemma serve_all_grows (requests : list (env * request)) (w : world) :
  Forall (fun er => text_request er.2) requests ->
  grows (db w) (db (serve_all requests w)).
Proof.
  intros Hreqs. revert w. induction Hreqs as [| [e req] rest Ht _ IH]; intros w.
  - apply grows_refl.
  - cbn [serve_all]. eapply grows_trans; [by apply serve_grows | apply IH].
Qed.

Lemma text_only_singleton (name value : string) :
  text_only {[ name := Js.JStr value ]}.
Proof.
  intros k v H. apply lookup_singleton_Some in H as [_ <-]. by eexists.
Qed.

Lemma text_only_insert (name value : string) (body : gmap string Js.value) :
  text_only body -> text_only (<[ name := Js.JStr value ]> body).
Proof.
  intros Hb k v H. apply lookup_insert_Some in H as [[_ <-] | [_ H]];
    [by eexists | by apply (Hb k)].
Qed.

Lemma text_only_empty : text_only ∅.
Proof. intros k v H. by rewrite lookup_empty in H. Qed.

Ltac solve_text_only :=
  cbv beta iota delta [text_request snd fst];
  repeat apply text_only_insert;
  first [apply text_only_singleton | apply text_only_empty].

Ltac solve_text_requests :=
  repeat (apply List.Forall_cons;
          [first [split; [reflexivity | solve_text_only] | solve_text_only] |]);
  apply List.Forall_nil.



(** X18: nothing is ever updated or deleted: after any sequence of
    requests whose fields are strings, each table is the table it was,
    with rows added at its end. *)
Theorem rows_are_only_added (requests : list (env * request)) (w : world) :
  Forall (fun er => text_request er.2) requests ->
  grows (db w) (db (serve_all requests w)).
Proof.
  intros Hreqs. revert w. induction Hreqs as [| [e req] rest Ht _ IH]; intros w.
  - apply grows_refl.
  - cbn [serve_all]. eapply grows_trans; [by apply serve_grows | apply IH].
Qed.

(** X18 at the registration of Ada Lovelace followed by a login. *)
Lemma rows_are_only_added_witness :
  let ada : gmap string Js.value :=
    {[ "first_name" := Js.JStr "Ada"; "last_name" := Js.JStr "Lovelace";
       "email" := Js.JStr "ada@example.com" ]} in
  let login : gmap string Js.value :=
    {[ "email" := Js.JStr "admin@example.com"; "password" := Js.JStr "rahasia" ]} in
  let requests := [(quiet, PostUserRegister ada); (quiet, PostAdminLogin login)] in
  grows (db fresh) (db (serve_all requests fresh)).
Proof.
  intros ada login requests.
  apply (rows_are_only_added requests fresh).
  subst requests ada login. solve_text_requests.
Defined.

Lemma filter_first_row (P : admin -> bool) (l more : list admin) (x : admin) :
  existsb P l = false -> P x = true ->
  exists rest, filter (fun a => P a = true) ((l ++ [x]) ++ more)%list = x :: rest.
Proof.
  intros Hl Hx. rewrite filter_app, (filter_fresh_row P l x Hl Hx). by eexists.
Qed.

(** X19: a registered admin can log in whatever happened in between: after
    an accepted registration and any sequence of further requests whose
    fields are strings, the login with the registered body is answered 200
    with the configured token. *)
Theorem login_survives_traffic
    (e1 e2 : env) (requests : list (env * request)) (body : gmap string Js.value)
    (w w1 : world) (em : string) (r : response) :
  text_field body "email" em ->
  adminRegister e1 body w = Return r w1 ->
  status r = 201 ->
  Forall (fun er => text_request er.2) requests ->
  collation e2 = collation e1 ->
  fault e2 SelectAdmin = None ->
  exists w2,
    adminLogin e2 body (serve_all requests w1)
    = Return (Response 200 (LoggedIn "Login berhasil." (ADMIN_TOKEN_DUMMY e2))) w2.
Proof.
  intros Hem Hrun H201 Hreqs Hcoll Hfault.
  destruct (adminRegister_accepted e1 body w w1 em r Hem Hrun H201)
    as (pw & Hpw & Hfresh & Hadmins).
  destruct (serve_all_grows requests w1 Hreqs) as ([more Hmore] & _).
  rewrite Hadmins in Hmore.
  destruct (filter_first_row (fun a => same_email e1 (admin_email a) em)
              (admins (db w)) more
              (Admin (next_admin (autoinc w)) em (sha256_hex pw))
              Hfresh (same_email_refl e1 em)) as [rest Hrows].
  unfold adminLogin.
  rewrite (truthy_text _ _ _ Hem), (truthy_text _ _ _ Hpw).
  destruct Hem as [-> _], Hpw as [-> _]. cbn [orb].
  unfold_admin. rewrite Hfault. cbn.
  rewrite (same_email_collation e1 e2 Hcoll), Hmore, Hrows.
  cbn. rewrite hashPassword_run. cbn. rewrite String.eqb_refl.
  by eexists.
Qed.

(** X19 at a registration followed by the registration of a user and a
    failed login of somebody else. *)
Lemma login_survives_traffic_witness :
  let admin : gmap string Js.value :=
    {[ "email" := Js.JStr "admin@example.com"; "password" := Js.JStr "rahasia" ]} in
  let ada : gmap string Js.value :=
    {[ "first_name" := Js.JStr "Ada"; "last_name" := Js.JStr "Lovelace";
       "email" := Js.JStr "ada@example.com" ]} in
  let other : gmap string Js.value :=
    {[ "email" := Js.JStr "nobody@example.com"; "password" := Js.JStr "tebak" ]} in
  let requests := [(quiet, PostUserRegister ada); (quiet, PostAdminLogin other)] in
  exists w2,
    adminLogin quiet admin
      (serve_all requests (world_after (adminRegister quiet admin fresh)))
    = Return (Response 200 (LoggedIn "Login berhasil." (ADMIN_TOKEN_DUMMY quiet))) w2.
Proof.
  intros admin ada other requests.
  assert (Hem : text_field admin "email" "admin@example.com")
    by (split; [vm_compute; reflexivity | discriminate]).
  assert (Hrun : adminRegister quiet admin fresh
                 = Return (Response 201 (Message "Admin berhasil didaftarkan."))
                     (world_after (adminRegister quiet admin fresh)))
    by (vm_compute; reflexivity).
  assert (Hreqs : Forall (fun er : env * request => text_request er.2) requests)
    by (subst requests ada other; solve_text_requests).
  exact (login_survives_traffic quiet quiet requests admin fresh _ _ _
           Hem Hrun eq_refl Hreqs eq_refl eq_refl).
Defined.

(** ** Atomicity of the registration of a user *)





